(** * Deployment orchestrator (src/lambda/deployment-orchestrator/index.js)

    A shallow embedding of the CodePipeline job handler and of the functions
    it calls, and the properties of the handler that the specification
    states.

    The handler is asynchronous JavaScript that talks to four AWS clients
    (CodePipeline, Lambda, S3, ECS) and reads the clock.  Every [await] is
    sequenced, so the program is modelled in an exception monad over an
    append-only trace: each request is recorded together with the error its
    promise was rejected with, if any.  What the services answer is decided
    by a [World], which may look at the whole history.

    JavaScript objects used as dictionaries ([process.env], the action
    configuration, [config]) are finite maps from the names of their own
    properties to strings.  The [artifacts] object is filled under names
    that come with the job, so it is modelled with its prototype: an
    assignment to the name [__proto__] replaces the prototype instead of
    adding a property.  Output to the console is not modelled. *)

From stdpp Require Import base option list strings gmap pretty.

Local Open Scope Z_scope.

(** ** JavaScript values *)

(** Thrown values.  The program throws [Error]s; reading a property of
    [undefined] throws a [TypeError].  A rejected SDK promise carries one of
    these as well. *)
Inductive exn :=
  | Error (msg : string)
  | TypeError (msg : string).

(** [error.message] *)
Definition message (e : exn) : string :=
  match e with Error m | TypeError m => m end.

(** [new Date()]: its ISO 8601 rendering ([toISOString]) is a function of the
    time value, so the model carries the date itself. *)
Record Date := { getTime : Z }.

(** [a || b] where [a] is [undefined] or a string: the empty string is
    falsy. *)
Definition or_default (a : option string) (b : string) : string :=
  match a with
  | Some s => if decide (s = "") then b else s
  | None => b
  end.

(** [a || b] where [a] is [undefined] or an object: objects are truthy. *)
Definition or_else {A} (a b : option A) : option A :=
  match a with
  | Some x => Some x
  | None => b
  end.

(** A value inside a template literal: [undefined] prints as such. *)
Definition template (a : option string) : string :=
  match a with
  | Some s => s
  | None => "undefined"
  end.

(** ** The job event *)

Record S3Location := { bucketName : string; objectKey : string }.

(** [artifact.location.s3Location] is the only part of the location that is
    read. *)
Record Artifact := { name : string; location : S3Location }.

Record ActionConfiguration := { configuration : option (gmap string string) }.

Record JobData := {
  inputArtifacts : list Artifact;
  outputArtifacts : option (list Artifact);
  actionConfiguration : option ActionConfiguration
}.

Record Job := { id : string; data : JobData }.

(** [event['CodePipeline.job']] may be missing. *)
Record Event := { CodePipeline_job : option Job }.

(** ** What the services return *)

Record GetObjectOutput := {
  Body : list Byte.byte;
  Metadata : gmap string string;
  ContentType : option string
}.

Record FunctionConfiguration := {
  FunctionArn : option string;
  Version : option string;
  LastModified : option string
}.

Record Service := { serviceArn : option string; taskDefinition : option string }.
Record UpdateServiceResponse := { service : option Service }.

Record ManagedUploadData := { Location : option string; ETag : option string }.

(** ** Values the program builds *)

(** An entry of the [artifacts] object of [processArtifacts]. *)
Record ArtifactPayload := {
  payload_data : list Byte.byte;
  payload_metadata : gmap string string;
  payload_contentType : option string
}.

(** The [artifacts] object of [processArtifacts]: its own properties, and
    the payload that an assignment to [__proto__] made its prototype,
    [None] while the prototype is still [Object.prototype]. *)
Record Artifacts := {
  own : gmap string ArtifactPayload;
  prototype : option ArtifactPayload
}.

(** [{}] *)
Definition empty_object : Artifacts := {| own := ∅; prototype := None |}.

(** [artifacts[name] = payload].  The name [__proto__] is an accessor of
    [Object.prototype]: its setter makes the payload, an object, the
    prototype of [artifacts] and adds no property.  Under any other name
    the payload becomes an own property, which replaces an earlier one of
    that name. *)
Definition assign (name : string) (payload : ArtifactPayload)
    (artifacts : Artifacts) : Artifacts :=
  if decide (name = "__proto__")
  then {| own := own artifacts; prototype := Some payload |}
  else {| own := <[name := payload]> (own artifacts);
          prototype := prototype artifacts |}.

(** [artifacts[name]], as far as it reads an entry: the own property of
    that name, and under [__proto__] the payload that is the prototype.
    Other values can be read through the prototype (the data, metadata and
    content type of the payload that is the prototype, the methods of
    [Object.prototype]); none of them is an entry, and none has one of the
    names [BuildArtifact] and [SourceOutput] that the backends read, so for
    these two [None] is [undefined]. *)
Global Instance artifacts_lookup : Lookup string ArtifactPayload Artifacts :=
  λ name artifacts,
    if decide (name = "__proto__") then prototype artifacts
    else own artifacts !! name.

(** The object a backend returns; [type] is the constructor. *)
Inductive DeploymentResult :=
  | LambdaResult (functionArn version lastModified : option string)
  | ECSResult (serviceArn taskDefinition : option string)
  | S3Result (location etag : option string).

Definition result_type (r : DeploymentResult) : string :=
  match r with
  | LambdaResult _ _ _ => "lambda"
  | ECSResult _ _ => "ecs"
  | S3Result _ _ => "s3"
  end.

(** [deploymentResult.version]: [undefined] where the object has no such
    property. *)
Definition result_version (r : DeploymentResult) : option string :=
  match r with
  | LambdaResult _ v _ => v
  | ECSResult _ _ | S3Result _ _ => None
  end.

Record OutputVariables := {
  deploymentStatus : string;
  deploymentTime : Date;
  deployedVersion : string
}.

Record FailureDetails := { failure_message : string; failure_type : string }.

(** The object that [updateOutputArtifacts] serialises with
    [JSON.stringify] as the body of each output artifact. *)
Record Summary := {
  summary_deploymentResult : DeploymentResult;
  summary_timestamp : Date;
  summary_status : string
}.

(** What the handler returns; [body] is kept before [JSON.stringify]. *)
Record ResponseBody := {
  body_message : string;
  body_jobId : string;
  body_result : DeploymentResult
}.
Record Response := { statusCode : Z; body : ResponseBody }.

(** ** Requests and the trace *)

Inductive call :=
  | S3_getObject (Bucket Key : string)
  | S3_upload (Bucket : option string) (Key : string) (body : list Byte.byte)
      (contentType : string)
  | S3_putObject (Bucket Key : string) (body : Summary) (contentType : string)
  | Lambda_updateFunctionCode (FunctionName : option string)
      (ZipFile : list Byte.byte)
  | Lambda_waitFor (state : string) (FunctionName : option string)
  | Lambda_updateFunctionConfiguration (FunctionName : option string)
      (NODE_ENV : option string) (DEPLOYMENT_TIME : Date)
  | ECS_updateService (cluster : string) (service : option string)
      (forceNewDeployment : bool)
  | CodePipeline_putJobSuccessResult (jobId : string)
      (outputVariables : OutputVariables)
  | CodePipeline_putJobFailureResult (jobId : string)
      (failureDetails : FailureDetails).

(** One step of the history: a request with the error it was rejected with
    ([None] when the promise was fulfilled), or a reading of the clock. *)
Inductive entry :=
  | Called (c : call) (rejected : option exn)
  | Clock (ms : Z).

(** The environment of the process: [process.env], the clock and the
    answers of the services.  Each may depend on everything that happened
    before. *)
Record World := {
  process_env : gmap string string;
  now : list entry → Z;
  s3_getObject : list entry → call → exn + GetObjectOutput;
  s3_upload : list entry → call → exn + ManagedUploadData;
  s3_putObject : list entry → call → exn + unit;
  lambda_updateFunctionCode : list entry → call → exn + FunctionConfiguration;
  lambda_waitFor : list entry → call → exn + unit;
  lambda_updateFunctionConfiguration : list entry → call → exn + unit;
  ecs_updateService : list entry → call → exn + UpdateServiceResponse;
  codepipeline_putJobSuccessResult : list entry → call → exn + unit;
  codepipeline_putJobFailureResult : list entry → call → exn + unit
}.

(** ** The monad

    A computation reads the world and the history so far, and yields a value
    or a thrown error together with the entries it appended. *)
Definition M (A : Type) : Type := World → list entry → (exn + A) * list entry.

Definition ret {A} (a : A) : M A := λ _ _, (inr a, []).

Definition throw {A} (e : exn) : M A := λ _ _, (inl e, []).

Definition bind {A B} (m : M A) (k : A → M B) : M B := λ w h,
  match m w h with
  | (inl e, d) => (inl e, d)
  | (inr a, d) =>
      match k a w (h ++ d) with
      | (r, d') => (r, d ++ d')
      end
  end.

(** [try { m } catch (error) { handler error }] *)
Definition try_catch {A} (m : M A) (handler : exn → M A) : M A := λ w h,
  match m w h with
  | (inl e, d) =>
      match handler e w (h ++ d) with
      | (r, d') => (r, d ++ d')
      end
  | (inr a, d) => (inr a, d)
  end.

(** [await client.operation(params).promise()] *)
Definition request {A} (oracle : World → list entry → call → exn + A)
    (c : call) : M A := λ w h,
  match oracle w h c with
  | inl e => (inl e, [Called c (Some e)])
  | inr a => (inr a, [Called c None])
  end.

(** [Date.now()], and the time value of [new Date()] *)
Definition Date_now : M Z := λ w h, (inr (now w h), [Clock (now w h)]).

Definition new_Date : M Date := bind Date_now (λ ms, ret {| getTime := ms |}).

Declare Scope js_scope.
Delimit Scope js_scope with js.
Notation "'let*' x ':=' m 'in' k" := (bind m (λ x, k))
  (at level 10, x binder, m at level 100, k at level 200) : js_scope.
Notation "m ';;' k" := (bind m (λ _, k))
  (at level 100, k at level 200, right associativity) : js_scope.
Local Open Scope js_scope.

(** ** The program *)

(** [process.env] *)
Definition read_env : M (gmap string string) := λ w _, (inr (process_env w), []).

(** [Object.assign(target, source)] for objects whose values are strings:
    every own property of [source] is written with [target[key] = value].
    Under the key [__proto__] that assignment calls the setter of
    [Object.prototype], which ignores a value that is not an object, so
    this property is not copied.  Every other key becomes an own property
    of [target], over the one that was there. *)
Definition Object_assign (target source : gmap string string)
    : gmap string string :=
  delete "__proto__" source ∪ target.

(** The object [getDeploymentConfig] builds from the environment [env] and
    the job: four keys read from the environment with their defaults, then
    [Object.assign(config, actionConfig)] when the job carries a
    configuration. *)
Definition deployment_config (env : gmap string string) (jobData : JobData)
    : gmap string string :=
  let config : gmap string string :=
    <["deploymentType" := or_default (env !! "DEPLOYMENT_TYPE") "lambda"]>
    (<["targetFunction" := or_default (env !! "TARGET_FUNCTION_NAME") "lambdadeploy-app"]>
    (<["environment" := or_default (env !! "ENVIRONMENT") "development"]>
    (<["region" := or_default (env !! "AWS_REGION") "us-east-1"]> ∅))) in
  match actionConfiguration jobData ≫= configuration with
  | Some actionConfig => Object_assign config actionConfig
  | None => config
  end.

Definition getDeploymentConfig (jobData : JobData) : M (gmap string string) :=
  let* env := read_env in
  ret (deployment_config env jobData).

(** The body of the [for ... of] loop of [processArtifacts], threaded
    through the remaining artifacts. *)
Fixpoint processArtifacts_loop (inputArtifacts : list Artifact)
    (artifacts : Artifacts) : M Artifacts :=
  match inputArtifacts with
  | [] => ret artifacts
  | artifact :: rest =>
      let location := location artifact in
      let* artifactData :=
        request s3_getObject (S3_getObject (bucketName location) (objectKey location)) in
      processArtifacts_loop rest
        (assign (name artifact)
           {| payload_data := Body artifactData;
              payload_metadata := Metadata artifactData;
              payload_contentType := ContentType artifactData |}
           artifacts)
  end.

Definition processArtifacts (inputArtifacts : list Artifact) : M Artifacts :=
  processArtifacts_loop inputArtifacts empty_object.

Definition deployToLambda (config : gmap string string)
    (artifacts : Artifacts) : M DeploymentResult :=
  match or_else (artifacts !! "BuildArtifact") (artifacts !! "SourceOutput") with
  | None => throw (Error "No application artifact found for Lambda deployment")
  | Some appArtifact =>
      try_catch
        (let* updateResult :=
           request lambda_updateFunctionCode
             (Lambda_updateFunctionCode (config !! "targetFunction")
                (payload_data appArtifact)) in
         request lambda_waitFor
           (Lambda_waitFor "functionUpdated" (config !! "targetFunction"));;
         (if decide (config !! "environment" ≠ Some "production") then
            let* date := new_Date in
            request lambda_updateFunctionConfiguration
              (Lambda_updateFunctionConfiguration (config !! "targetFunction")
                 (config !! "environment") date)
          else ret ());;
         ret (LambdaResult (FunctionArn updateResult) (Version updateResult)
                (LastModified updateResult)))
        (λ error, throw (Error ("Lambda deployment failed: " +:+ message error)))
  end.

Definition deployToECS (config : gmap string string)
    (artifacts : Artifacts) : M DeploymentResult :=
  try_catch
    (let* updateResult :=
       request ecs_updateService
         (ECS_updateService (or_default (config !! "clusterName") "default")
            (config !! "serviceName") true) in
     match service updateResult with
     | None => throw (TypeError "Cannot read properties of undefined (reading 'serviceArn')")
     | Some svc => ret (ECSResult (serviceArn svc) (taskDefinition svc))
     end)
    (λ error, throw (Error ("ECS deployment failed: " +:+ message error))).

(** The object-store key of [deployToS3] for a clock reading. *)
Definition deployment_key (ms : Z) : string :=
  "deployments/" +:+ pretty ms +:+ "/app.zip".

Definition deployToS3 (config : gmap string string)
    (artifacts : Artifacts) : M DeploymentResult :=
  try_catch
    (match or_else (artifacts !! "BuildArtifact") (artifacts !! "SourceOutput") with
     | None => throw (Error "No application artifact found for S3 deployment")
     | Some appArtifact =>
         let* ms := Date_now in
         let* uploadResult :=
           request s3_upload
             (S3_upload (config !! "bucketName") (deployment_key ms)
                (payload_data appArtifact) "application/zip") in
         ret (S3Result (Location uploadResult) (ETag uploadResult))
     end)
    (λ error, throw (Error ("S3 deployment failed: " +:+ message error))).

Definition executeDeployment (config : gmap string string)
    (artifacts : Artifacts) : M DeploymentResult :=
  let deploymentType := config !! "deploymentType" in
  if decide (deploymentType = Some "lambda") then deployToLambda config artifacts
  else if decide (deploymentType = Some "ecs") then deployToECS config artifacts
  else if decide (deploymentType = Some "s3") then deployToS3 config artifacts
  else throw (Error ("Unsupported deployment type: " +:+ template deploymentType)).

Fixpoint updateOutputArtifacts (outputArtifacts : list Artifact)
    (deploymentResult : DeploymentResult) : M unit :=
  match outputArtifacts with
  | [] => ret ()
  | artifact :: rest =>
      let location := location artifact in
      let* date := new_Date in
      let summary := {| summary_deploymentResult := deploymentResult;
                        summary_timestamp := date;
                        summary_status := "SUCCESS" |} in
      request s3_putObject
        (S3_putObject (bucketName location) (objectKey location) summary
           "application/json");;
      updateOutputArtifacts rest deploymentResult
  end.

(** [outputArtifacts && outputArtifacts.length > 0] *)
Definition nonempty (outputArtifacts : option (list Artifact)) : bool :=
  match outputArtifacts with
  | Some (_ :: _) => true
  | _ => false
  end.

(** [if (outputArtifacts && outputArtifacts.length > 0) await
    updateOutputArtifacts(outputArtifacts, deploymentResult)] *)
Definition write_summaries (outputArtifacts : option (list Artifact))
    (deploymentResult : DeploymentResult) : M unit :=
  if nonempty outputArtifacts
  then updateOutputArtifacts (default [] outputArtifacts) deploymentResult
  else ret ().

(** The body of the [try] block of the handler.  Reading [.id] of a missing
    job throws before anything else happens. *)
Definition handler_try (event : Event) : M Response :=
  match CodePipeline_job event with
  | None => throw (TypeError "Cannot read properties of undefined (reading 'id')")
  | Some job =>
      let jobId := id job in
      let jobData := data job in
      let* config := getDeploymentConfig jobData in
      let* artifacts := processArtifacts (inputArtifacts jobData) in
      let* deploymentResult := executeDeployment config artifacts in
      write_summaries (outputArtifacts jobData) deploymentResult;;
      let* date := new_Date in
      request codepipeline_putJobSuccessResult
        (CodePipeline_putJobSuccessResult jobId
           {| deploymentStatus := "SUCCESS";
              deploymentTime := date;
              deployedVersion := or_default (result_version deploymentResult) "unknown" |});;
      ret {| statusCode := 200;
             body := {| body_message := "Deployment orchestrated successfully";
                        body_jobId := jobId;
                        body_result := deploymentResult |} |}
  end.

(** The [catch] block of the handler. *)
Definition handler_catch (event : Event) (error : exn) : M Response :=
  match CodePipeline_job event with
  | Some job =>
      request codepipeline_putJobFailureResult
        (CodePipeline_putJobFailureResult (id job)
           {| failure_message := message error; failure_type := "JobFailed" |})
  | None => ret ()
  end;;
  throw error.

(** [exports.handler] *)
Definition handler (event : Event) : M Response :=
  try_catch (handler_try event) (handler_catch event).

(** ** Observing a trace *)

Inductive kind :=
  | GetObject | Upload | PutObject
  | UpdateFunctionCode | WaitFor | UpdateFunctionConfiguration
  | UpdateService
  | PutJobSuccessResult | PutJobFailureResult
  | ClockRead.

Global Instance kind_eq_dec : EqDecision kind.
Proof. solve_decision. Defined.

Definition kind_of_call (c : call) : kind :=
  match c with
  | S3_getObject _ _ => GetObject
  | S3_upload _ _ _ _ => Upload
  | S3_putObject _ _ _ _ => PutObject
  | Lambda_updateFunctionCode _ _ => UpdateFunctionCode
  | Lambda_waitFor _ _ => WaitFor
  | Lambda_updateFunctionConfiguration _ _ _ => UpdateFunctionConfiguration
  | ECS_updateService _ _ _ => UpdateService
  | CodePipeline_putJobSuccessResult _ _ => PutJobSuccessResult
  | CodePipeline_putJobFailureResult _ _ => PutJobFailureResult
  end.

Definition kind_of (e : entry) : kind :=
  match e with
  | Called c _ => kind_of_call c
  | Clock _ => ClockRead
  end.

(** The error a request was rejected with. *)
Definition rejection (e : entry) : option exn :=
  match e with
  | Called _ rej => rej
  | Clock _ => None
  end.

Definition fulfilled (e : entry) : Prop := rejection e = None.

(** The terminal reports to the pipeline, in the order they were made. *)
Inductive report := Success | Failure.

Definition report_of (e : entry) : option report :=
  match kind_of e with
  | PutJobSuccessResult => Some Success
  | PutJobFailureResult => Some Failure
  | _ => None
  end.

Definition reports (d : list entry) : list report := omap report_of d.

(** The requests of one kind. *)
Definition calls (k : kind) (d : list entry) : list entry :=
  filter (λ e, kind_of e = k) d.

(** The entries the handler appends around the stages. *)
Definition failure_report (job : Job) (error : exn) (rej : option exn) : entry :=
  Called
    (CodePipeline_putJobFailureResult (id job)
       {| failure_message := message error; failure_type := "JobFailed" |})
    rej.

Definition success_report (job : Job) (deploymentResult : DeploymentResult)
    (ms : Z) (rej : option exn) : entry :=
  Called
    (CodePipeline_putJobSuccessResult (id job)
       {| deploymentStatus := "SUCCESS";
          deploymentTime := {| getTime := ms |};
          deployedVersion := or_default (result_version deploymentResult) "unknown" |})
    rej.

Definition fetch (artifact : Artifact) (rej : option exn) : entry :=
  Called
    (S3_getObject (bucketName (location artifact)) (objectKey (location artifact)))
    rej.

(** What [updateOutputArtifacts] appends for one artifact whose date read
    [ms]: the clock reading and the request that writes the summary. *)
Definition summary_write (deploymentResult : DeploymentResult)
    (artifact : Artifact) (ms : Z) (rej : option exn) : list entry :=
  [Clock ms;
   Called
     (S3_putObject (bucketName (location artifact)) (objectKey (location artifact))
        {| summary_deploymentResult := deploymentResult;
           summary_timestamp := {| getTime := ms |};
           summary_status := "SUCCESS" |}
        "application/json")
     rej].

(** The computation returned, it did not throw. *)
Definition returned {A} (r : exn + A) : Prop :=
  match r with
  | inr _ => True
  | inl _ => False
  end.

(** A stage of the job: a computation that makes requests of the kinds [ks]
    only and that returns normally only if every request was fulfilled. *)
Definition stage {A} (ks : list kind) (m : M A) : Prop :=
  ∀ w h,
    Forall (λ e, kind_of e ∈ ks) (m w h).2 ∧
    (returned (m w h).1 → Forall fulfilled (m w h).2).

(** How a run of the handler on a job went: the stage that threw, if any,
    with what each stage appended to the history. *)
Inductive handler_outcome (w : World) (h : list entry) (job : Job)
    : (exn + Response) * list entry → Prop :=
  | fetch_failed e d1 rej :
      processArtifacts (inputArtifacts (data job)) w h = (inl e, d1) →
      handler_outcome w h job
        (inl (default e rej), d1 ++ [failure_report job e rej])
  | dispatch_failed artifacts d1 e d2 rej :
      processArtifacts (inputArtifacts (data job)) w h = (inr artifacts, d1) →
      executeDeployment (deployment_config (process_env w) (data job)) artifacts
        w (h ++ d1) = (inl e, d2) →
      handler_outcome w h job
        (inl (default e rej), d1 ++ d2 ++ [failure_report job e rej])
  | summary_failed artifacts d1 result d2 e d3 rej :
      processArtifacts (inputArtifacts (data job)) w h = (inr artifacts, d1) →
      executeDeployment (deployment_config (process_env w) (data job)) artifacts
        w (h ++ d1) = (inr result, d2) →
      write_summaries (outputArtifacts (data job)) result w (h ++ d1 ++ d2)
        = (inl e, d3) →
      handler_outcome w h job
        (inl (default e rej), d1 ++ d2 ++ d3 ++ [failure_report job e rej])
  | success_report_failed artifacts d1 result d2 d3 ms e rej :
      processArtifacts (inputArtifacts (data job)) w h = (inr artifacts, d1) →
      executeDeployment (deployment_config (process_env w) (data job)) artifacts
        w (h ++ d1) = (inr result, d2) →
      write_summaries (outputArtifacts (data job)) result w (h ++ d1 ++ d2)
        = (inr (), d3) →
      handler_outcome w h job
        (inl (default e rej),
         d1 ++ d2 ++ d3 ++
         [Clock ms; success_report job result ms (Some e); failure_report job e rej])
  | succeeded artifacts d1 result d2 d3 ms :
      processArtifacts (inputArtifacts (data job)) w h = (inr artifacts, d1) →
      executeDeployment (deployment_config (process_env w) (data job)) artifacts
        w (h ++ d1) = (inr result, d2) →
      write_summaries (outputArtifacts (data job)) result w (h ++ d1 ++ d2)
        = (inr (), d3) →
      handler_outcome w h job
        (inr {| statusCode := 200;
                body := {| body_message := "Deployment orchestrated successfully";
                           body_jobId := id job;
                           body_result := result |} |},
         d1 ++ d2 ++ d3 ++ [Clock ms; success_report job result ms None]).

(** Some request of kind [k] was rejected. *)
Definition rejected (k : kind) (d : list entry) : Prop :=
  Exists (λ e, kind_of e = k ∧ rejection e ≠ None) d.

(** Exactly one terminal report was made. *)
Definition exactly_one_report (d : list entry) : Prop :=
  length (reports d) = 1%nat.

(** The keys of the uploads of [deployToS3]. *)
Definition upload_keys (d : list entry) : list string :=
  omap (λ e, match e with
             | Called (S3_upload _ key _ _) _ => Some key
             | _ => None
             end) d.

(** What [updateOutputArtifacts] appends when every write is fulfilled, for
    the clock readings [times]. *)
Definition summary_writes (deploymentResult : DeploymentResult)
    (outputArtifacts : list Artifact) (times : list Z) : list entry :=
  concat (zip_with (λ artifact ms, summary_write deploymentResult artifact ms None)
            outputArtifacts times).

(** ** Concrete worlds and jobs

    Used to run the handler on explicit inputs. *)

(** A world in which every request is fulfilled: the function update
    answers with [version], the clock reads [clock]. *)
Definition calm_world (env : gmap string string) (clock : list entry → Z)
    (version : option string) : World := {|
  process_env := env;
  now := clock;
  s3_getObject := λ _ _,
    inr {| Body := []; Metadata := ∅; ContentType := Some "application/zip" |};
  s3_upload := λ _ _,
    inr {| Location := Some "https://bucket.s3.amazonaws.com/app.zip";
           ETag := Some "etag" |};
  s3_putObject := λ _ _, inr ();
  lambda_updateFunctionCode := λ _ _,
    inr {| FunctionArn := Some "arn:aws:lambda:us-east-1:123456789012:function:test";
           Version := version;
           LastModified := Some "2023-01-01T00:00:00.000Z" |};
  lambda_waitFor := λ _ _, inr ();
  lambda_updateFunctionConfiguration := λ _ _, inr ();
  ecs_updateService := λ _ _,
    inr {| service := Some {| serviceArn := Some "arn:aws:ecs:service";
                              taskDefinition := Some "task:1" |} |};
  codepipeline_putJobSuccessResult := λ _ _, inr ();
  codepipeline_putJobFailureResult := λ _ _, inr ()
|}.

Definition test_world : World := calm_world ∅ (λ _, 1700000000000) (Some "1").

(** The pipeline rejects the success report. *)
Definition throttled_world : World := {|
  process_env := process_env test_world;
  now := now test_world;
  s3_getObject := s3_getObject test_world;
  s3_upload := s3_upload test_world;
  s3_putObject := s3_putObject test_world;
  lambda_updateFunctionCode := lambda_updateFunctionCode test_world;
  lambda_waitFor := lambda_waitFor test_world;
  lambda_updateFunctionConfiguration := lambda_updateFunctionConfiguration test_world;
  ecs_updateService := ecs_updateService test_world;
  codepipeline_putJobSuccessResult := λ _ _, inl (Error "ThrottlingException");
  codepipeline_putJobFailureResult := codepipeline_putJobFailureResult test_world
|}.

(** The function's configuration cannot be updated. *)
Definition locked_world : World := {|
  process_env := process_env test_world;
  now := now test_world;
  s3_getObject := s3_getObject test_world;
  s3_upload := s3_upload test_world;
  s3_putObject := s3_putObject test_world;
  lambda_updateFunctionCode := lambda_updateFunctionCode test_world;
  lambda_waitFor := lambda_waitFor test_world;
  lambda_updateFunctionConfiguration := λ _ _, inl (Error "ResourceConflictException");
  ecs_updateService := ecs_updateService test_world;
  codepipeline_putJobSuccessResult := codepipeline_putJobSuccessResult test_world;
  codepipeline_putJobFailureResult := codepipeline_putJobFailureResult test_world
|}.

(** The object store rejects every write of a summary. *)
Definition readonly_world : World := {|
  process_env := process_env test_world;
  now := now test_world;
  s3_getObject := s3_getObject test_world;
  s3_upload := s3_upload test_world;
  s3_putObject := λ _ _, inl (Error "AccessDenied");
  lambda_updateFunctionCode := lambda_updateFunctionCode test_world;
  lambda_waitFor := lambda_waitFor test_world;
  lambda_updateFunctionConfiguration := lambda_updateFunctionConfiguration test_world;
  ecs_updateService := ecs_updateService test_world;
  codepipeline_putJobSuccessResult := codepipeline_putJobSuccessResult test_world;
  codepipeline_putJobFailureResult := codepipeline_putJobFailureResult test_world
|}.

(** An [artifacts] object with the own properties [entries], its prototype
    untouched. *)
Definition object_with (entries : gmap string ArtifactPayload) : Artifacts :=
  {| own := entries; prototype := None |}.

(** What [processArtifacts] keeps of an object fetched in [calm_world]. *)
Definition test_payload : ArtifactPayload :=
  {| payload_data := [];
     payload_metadata := ∅;
     payload_contentType := Some "application/zip" |}.

Definition test_artifact (name : string) : Artifact :=
  {| name := name;
     location := {| bucketName := "test-bucket"; objectKey := "test-key" |} |}.

(** The job of tests/lambda.test.js, with the given names of input
    artifacts, output artifacts and action configuration. *)
Definition test_job (id : string) (inputs : list string) (outputs : list Artifact)
    (actionConfig : gmap string string) : Job :=
  {| id := id;
     data := {| inputArtifacts := test_artifact <$> inputs;
                outputArtifacts := Some outputs;
                actionConfiguration := Some {| configuration := Some actionConfig |} |} |}.

Definition test_event (inputs : list string) (outputs : list Artifact)
    (actionConfig : gmap string string) : Event :=
  {| CodePipeline_job := Some (test_job "test-job-id" inputs outputs actionConfig) |}.

(** A clock that advances with the history. *)
Definition ticking_world : World :=
  calm_world ∅ (λ h, 1700000000000 + Z.of_nat (length h)) (Some "1").

(** A job for the static-artifact backend. *)
Definition s3_event (id : string) : Event :=
  {| CodePipeline_job :=
       Some (test_job id ["BuildArtifact"] []
               {["deploymentType" := "s3"; "bucketName" := "releases"]}) |}.

(** Two jobs handled one after the other by the same process. *)
Definition two_s3_jobs : M Response :=
  handler (s3_event "job-1");;
  handler (s3_event "job-2").

(** The function update answers with an empty version string. *)
Definition unversioned_world : World :=
  calm_world ∅ (λ _, 1700000000000) (Some "").

(** ** The three layers of the specification

    The specification describes the configuration as an overlay of three
    mappings keyed by configuration key.  These definitions follow its
    words; [deployment_config] above follows the code. *)

(** The built-in defaults. *)
Definition default_layer : gmap string string :=
  {["deploymentType" := "lambda";
    "targetFunction" := "lambdadeploy-app";
    "environment" := "development";
    "region" := "us-east-1"]}.

(** The key [key] as defined by the value of its environment variable: a
    variable that is unset or set to the empty string defines nothing. *)
Definition from_variable (key : string) (value : option string)
    : gmap string string :=
  match value with
  | Some v => if decide (v = "") then ∅ else {[key := v]}
  | None => ∅
  end.

(** The environment layer: the four variables the resolver reads, under
    the keys it gives them. *)
Definition environment_layer (env : gmap string string) : gmap string string :=
  from_variable "deploymentType" (env !! "DEPLOYMENT_TYPE")
  ∪ from_variable "targetFunction" (env !! "TARGET_FUNCTION_NAME")
  ∪ from_variable "environment" (env !! "ENVIRONMENT")
  ∪ from_variable "region" (env !! "AWS_REGION").

(** The job layer: the action configuration, empty when the job has none. *)
Definition action_layer (jobData : JobData) : gmap string string :=
  default ∅ (actionConfiguration jobData ≫= configuration).

(** Later layers override earlier ones key by key. *)
Definition overlay (defaults environment actionConfig : gmap string string)
    : gmap string string :=
  actionConfig ∪ (environment ∪ defaults).

(** The keys the resolver knows. *)
Definition recognized_keys : list string :=
  ["deploymentType"; "targetFunction"; "environment"; "region"].

(** [DEPLOYMENT_TYPE] is set, to the empty string. *)
Definition blank_type_world : World :=
  calm_world {["DEPLOYMENT_TYPE" := ""]} (λ _, 1700000000000) (Some "1").

(** ** Further observations *)

(** The string [s] begins with [p]. *)
Definition starts_with (p s : string) : Prop := ∃ rest, s = p +:+ rest.

(** The kinds of request the backend selected by the deployment type
    makes. *)
Definition backend_kinds (deploymentType : option string) : list kind :=
  if decide (deploymentType = Some "lambda")
  then [UpdateFunctionCode; WaitFor; ClockRead; UpdateFunctionConfiguration]
  else if decide (deploymentType = Some "ecs") then [UpdateService]
  else if decide (deploymentType = Some "s3") then [ClockRead; Upload]
  else [].

(** The message with which a stage throws when its request of kind [k] was
    rejected with [e]: the backends put their name before the message. *)
Definition wrapped_message (k : kind) (e : exn) : string :=
  match k with
  | UpdateFunctionCode | WaitFor | UpdateFunctionConfiguration =>
      "Lambda deployment failed: " +:+ message e
  | UpdateService => "ECS deployment failed: " +:+ message e
  | Upload => "S3 deployment failed: " +:+ message e
  | _ => message e
  end.

(** What [processArtifacts] keeps of a fetched object. *)
Definition payload_of (artifactData : GetObjectOutput) : ArtifactPayload :=
  {| payload_data := Body artifactData;
     payload_metadata := Metadata artifactData;
     payload_contentType := ContentType artifactData |}.

(** When a request of a stage is rejected, it is the last request of the
    stage, and the stage throws an error with the wrapped message. *)
Definition halts_on_rejection {A} (m : M A) : Prop :=
  ∀ w h r d c e,
    m w h = (r, d) → Called c (Some e) ∈ d →
    ∃ before error,
      d = before ++ [Called c (Some e)]
      ∧ Forall fulfilled before
      ∧ r = inl error
      ∧ message error = wrapped_message (kind_of_call c) e.

(** The function update is rejected, as in the failure test of
    tests/lambda.test.js. *)
Definition broken_update_world : World := {|
  process_env := process_env test_world;
  now := now test_world;
  s3_getObject := s3_getObject test_world;
  s3_upload := s3_upload test_world;
  s3_putObject := s3_putObject test_world;
  lambda_updateFunctionCode := λ _ _, inl (Error "Deployment failed");
  lambda_waitFor := lambda_waitFor test_world;
  lambda_updateFunctionConfiguration := lambda_updateFunctionConfiguration test_world;
  ecs_updateService := ecs_updateService test_world;
  codepipeline_putJobSuccessResult := codepipeline_putJobSuccessResult test_world;
  codepipeline_putJobFailureResult := codepipeline_putJobFailureResult test_world
|}.

(** The object store answers a fetch with the key as content type, which
    tells the fetched objects apart. *)
Definition echo_world : World := {|
  process_env := process_env test_world;
  now := now test_world;
  s3_getObject := λ _ c,
    match c with
    | S3_getObject _ key =>
        inr {| Body := []; Metadata := ∅; ContentType := Some key |}
    | _ => inl (Error "NoSuchKey")
    end;
  s3_upload := s3_upload test_world;
  s3_putObject := s3_putObject test_world;
  lambda_updateFunctionCode := lambda_updateFunctionCode test_world;
  lambda_waitFor := lambda_waitFor test_world;
  lambda_updateFunctionConfiguration := lambda_updateFunctionConfiguration test_world;
  ecs_updateService := ecs_updateService test_world;
  codepipeline_putJobSuccessResult := codepipeline_putJobSuccessResult test_world;
  codepipeline_putJobFailureResult := codepipeline_putJobFailureResult test_world
|}.

(** An input artifact stored under [key]. *)
Definition stored_artifact (name key : string) : Artifact :=
  {| name := name;
     location := {| bucketName := "test-bucket"; objectKey := key |} |}.

(** How many requests of each kind a job may make: one fetch for each input
    artifact, one write for each output artifact, one of each request of a
    backend and of each report; the clock is read once by a backend, once
    for each summary and once for the success report. *)
Definition request_budget (jobData : JobData) (k : kind) : nat :=
  match k with
  | GetObject => length (inputArtifacts jobData)
  | PutObject => length (default [] (outputArtifacts jobData))
  | ClockRead => S (S (length (default [] (outputArtifacts jobData))))
  | _ => 1
  end.

(** Where an artifact is stored: bucket and key. *)
Definition target (artifact : Artifact) : string * string :=
  (bucketName (location artifact), objectKey (location artifact)).

(** The bucket and key of a fetch, and of a write of a summary. *)
Definition fetch_target (x : entry) : option (string * string) :=
  match x with
  | Called (S3_getObject bucket key) _ => Some (bucket, key)
  | _ => None
  end.

Definition write_target (x : entry) : option (string * string) :=
  match x with
  | Called (S3_putObject bucket key _ _) _ => Some (bucket, key)
  | _ => None
  end.

(** The request of [deployToECS]. *)
Definition update_service (config : gmap string string) : call :=
  ECS_updateService (or_default (config !! "clusterName") "default")
    (config !! "serviceName") true.

(** The ways in which the dispatch of [artifacts] under [config] throws
    although every request it made was fulfilled, with the error thrown and
    the requests made: the job itself cannot be deployed. *)
Inductive input_error (config : gmap string string) (artifacts : Artifacts)
    (w : World) (h : list entry) : exn → list entry → Prop :=
  | no_artifact_for_lambda :
      config !! "deploymentType" = Some "lambda" →
      artifacts !! "BuildArtifact" = None →
      artifacts !! "SourceOutput" = None →
      input_error config artifacts w h
        (Error "No application artifact found for Lambda deployment") []
  | no_artifact_for_s3 :
      config !! "deploymentType" = Some "s3" →
      artifacts !! "BuildArtifact" = None →
      artifacts !! "SourceOutput" = None →
      input_error config artifacts w h
        (Error "S3 deployment failed: No application artifact found for S3 deployment")
        []
  | no_service_in_response updateResult :
      config !! "deploymentType" = Some "ecs" →
      ecs_updateService w h (update_service config) = inr updateResult →
      service updateResult = None →
      input_error config artifacts w h
        (Error "ECS deployment failed: Cannot read properties of undefined (reading 'serviceArn')")
        [Called (update_service config) None]
  | unsupported_type :
      config !! "deploymentType" ≠ Some "lambda" →
      config !! "deploymentType" ≠ Some "ecs" →
      config !! "deploymentType" ≠ Some "s3" →
      input_error config artifacts w h
        (Error ("Unsupported deployment type: "
                +:+ template (config !! "deploymentType")))
        [].

(** A build whose package is one byte, to tell it from [test_payload]. *)
Definition build_payload : ArtifactPayload :=
  {| payload_data := [Byte.x01];
     payload_metadata := ∅;
     payload_contentType := Some "application/zip" |}.

(** * Properties *)

(** ** Running the monad *)

Lemma bind_throws {A B} (m : M A) (k : A → M B) w h e d :
  m w h = (inl e, d) → bind m k w h = (inl e, d).
Proof. unfold bind. by intros ->. Qed.

Lemma bind_returns {A B} (m : M A) (k : A → M B) w h a d :
  m w h = (inr a, d) →
  bind m k w h = ((k a w (h ++ d)).1, d ++ (k a w (h ++ d)).2).
Proof. unfold bind. intros ->. by destruct (k a w (h ++ d)). Qed.

(** A [catch] block that only throws a new error. *)
Lemma try_catch_rethrow {A} (m : M A) (g : exn → exn) w h :
  try_catch m (λ error, throw (g error)) w h =
  match m w h with
  | (inl e, d) => (inl (g e), d)
  | (inr a, d) => (inr a, d)
  end.
Proof.
  unfold try_catch, throw. destruct (m w h) as [[e|a] d]; [|done].
  by rewrite app_nil_r.
Qed.

(** ** Stages *)

Lemma stage_ret {A} ks (a : A) : stage ks (ret a).
Proof. intros w h. split; [constructor | intros _; constructor]. Qed.

Lemma stage_throw {A} ks e : stage ks (@throw A e).
Proof. intros w h. split; [constructor | intros []]. Qed.

Lemma stage_bind {A B} ks (m : M A) (k : A → M B) :
  stage ks m → (∀ a, stage ks (k a)) → stage ks (bind m k).
Proof.
  intros Hm Hk w h. destruct (Hm w h) as [Hm1 Hm2].
  destruct (m w h) as [[e|a] d] eqn:E.
  - rewrite (bind_throws _ _ _ _ _ _ E). split; [done | intros []].
  - rewrite (bind_returns _ _ _ _ _ _ E). simpl in *.
    destruct (Hk a w (h ++ d)) as [Hk1 Hk2]. split.
    + by apply Forall_app.
    + intros Hr. apply Forall_app. auto.
Qed.

Lemma stage_rethrow {A} ks (m : M A) (g : exn → exn) :
  stage ks m → stage ks (try_catch m (λ error, throw (g error))).
Proof.
  intros Hm w h. rewrite try_catch_rethrow. destruct (Hm w h) as [Hm1 Hm2].
  destruct (m w h) as [[e|a] d]; simpl in *; [|done].
  split; [done | intros []].
Qed.

Lemma stage_request {A} ks (oracle : World → list entry → call → exn + A) c :
  kind_of_call c ∈ ks → stage ks (request oracle c).
Proof.
  intros Hc w h. unfold request.
  destruct (oracle w h c); simpl; split;
    repeat first [done | constructor | intros []].
Qed.

Lemma stage_Date_now ks : ClockRead ∈ ks → stage ks Date_now.
Proof. intros Hc w h. split; [|intros _]; by repeat constructor. Qed.

Lemma stage_new_Date ks : ClockRead ∈ ks → stage ks new_Date.
Proof.
  intros Hc. apply stage_bind; [by apply stage_Date_now |].
  intros ms. apply stage_ret.
Qed.

Lemma stage_read_env ks : stage ks read_env.
Proof. intros w h. split; [constructor | intros _; constructor]. Qed.

(** Membership of a kind in a list of kinds, and inclusion of such lists. *)
Ltac solve_kind := simpl; by repeat constructor.
Ltac solve_kinds :=
  let k := fresh "k" in
  intros k; rewrite !elem_of_cons, ?elem_of_nil; tauto.

Ltac solve_stage :=
  repeat first
    [ apply stage_ret | apply stage_throw | apply stage_rethrow
    | apply stage_new_Date | apply stage_Date_now | apply stage_read_env
    | apply stage_request
    | apply stage_bind; [|intros ?]
    | case_match | case_decide
    | solve_kind ].

Lemma stage_getDeploymentConfig jobData : stage [] (getDeploymentConfig jobData).
Proof. unfold getDeploymentConfig. solve_stage. Qed.

Lemma stage_processArtifacts_loop inputArtifacts artifacts :
  stage [GetObject] (processArtifacts_loop inputArtifacts artifacts).
Proof.
  revert artifacts.
  induction inputArtifacts as [|artifact rest IH]; intros artifacts; simpl.
  - apply stage_ret.
  - apply stage_bind; [apply stage_request; solve_kind | intros ?; apply IH].
Qed.

Lemma stage_processArtifacts inputArtifacts :
  stage [GetObject] (processArtifacts inputArtifacts).
Proof. apply stage_processArtifacts_loop. Qed.

Lemma stage_deployToLambda config artifacts :
  stage [ClockRead; UpdateFunctionCode; WaitFor; UpdateFunctionConfiguration]
    (deployToLambda config artifacts).
Proof. unfold deployToLambda. solve_stage. Qed.

Lemma stage_deployToECS config artifacts :
  stage [UpdateService] (deployToECS config artifacts).
Proof. unfold deployToECS. solve_stage. Qed.

Lemma stage_deployToS3 config artifacts :
  stage [ClockRead; Upload] (deployToS3 config artifacts).
Proof. unfold deployToS3. solve_stage. Qed.

Lemma stage_weaken {A} ks ks' (m : M A) : ks ⊆ ks' → stage ks m → stage ks' m.
Proof.
  intros Hs Hm w h. destruct (Hm w h) as [H1 H2]. split; [|done].
  eapply Forall_impl; [done |]. intros e He. by apply Hs.
Qed.

Lemma stage_executeDeployment config artifacts :
  stage [ClockRead; Upload; UpdateFunctionCode; WaitFor;
         UpdateFunctionConfiguration; UpdateService]
    (executeDeployment config artifacts).
Proof.
  unfold executeDeployment. repeat case_decide.
  - eapply stage_weaken; [|apply stage_deployToLambda]. solve_kinds.
  - eapply stage_weaken; [|apply stage_deployToECS]. solve_kinds.
  - eapply stage_weaken; [|apply stage_deployToS3]. solve_kinds.
  - apply stage_throw.
Qed.

Lemma stage_updateOutputArtifacts outputArtifacts deploymentResult :
  stage [ClockRead; PutObject] (updateOutputArtifacts outputArtifacts deploymentResult).
Proof.
  induction outputArtifacts as [|artifact rest IH]; simpl.
  - apply stage_ret.
  - apply stage_bind; [apply stage_new_Date; solve_kind | intros date].
    apply stage_bind; [apply stage_request; solve_kind | intros _; apply IH].
Qed.

Lemma stage_write_summaries outputArtifacts deploymentResult :
  stage [ClockRead; PutObject] (write_summaries outputArtifacts deploymentResult).
Proof.
  unfold write_summaries. case_match.
  - apply stage_updateOutputArtifacts.
  - apply stage_ret.
Qed.

(** ** The handler, stage by stage *)

Lemma getDeploymentConfig_run jobData w h :
  getDeploymentConfig jobData w h
  = (inr (deployment_config (process_env w) jobData), []).
Proof. reflexivity. Qed.

Lemma handler_catch_run job error w h :
  ∃ rej,
    handler_catch {| CodePipeline_job := Some job |} error w h
    = (inl (default error rej), [failure_report job error rej]).
Proof.
  unfold handler_catch, bind, request, throw, failure_report; simpl.
  destruct (codepipeline_putJobFailureResult w h _) as [e|[]].
  - by exists (Some e).
  - by exists None.
Qed.

Lemma handler_try_run job w h :
  handler_try {| CodePipeline_job := Some job |} w h =
  match processArtifacts (inputArtifacts (data job)) w h with
  | (inl e, d1) => (inl e, d1)
  | (inr artifacts, d1) =>
      match executeDeployment (deployment_config (process_env w) (data job))
              artifacts w (h ++ d1) with
      | (inl e, d2) => (inl e, d1 ++ d2)
      | (inr result, d2) =>
          match write_summaries (outputArtifacts (data job)) result w
                  (h ++ d1 ++ d2) with
          | (inl e, d3) => (inl e, d1 ++ d2 ++ d3)
          | (inr _, d3) =>
              let ms := now w (h ++ d1 ++ d2 ++ d3) in
              match codepipeline_putJobSuccessResult w
                      (h ++ d1 ++ d2 ++ d3 ++ [Clock ms])
                      (CodePipeline_putJobSuccessResult (id job)
                         {| deploymentStatus := "SUCCESS";
                            deploymentTime := {| getTime := ms |};
                            deployedVersion :=
                              or_default (result_version result) "unknown" |}) with
              | inl e =>
                  (inl e,
                   d1 ++ d2 ++ d3 ++ [Clock ms; success_report job result ms (Some e)])
              | inr _ =>
                  (inr {| statusCode := 200;
                          body := {| body_message := "Deployment orchestrated successfully";
                                     body_jobId := id job;
                                     body_result := result |} |},
                   d1 ++ d2 ++ d3 ++ [Clock ms; success_report job result ms None])
              end
          end
      end
  end.
Proof.
  unfold handler_try; simpl.
  rewrite (bind_returns _ _ _ _ _ _ (getDeploymentConfig_run _ _ _)).
  rewrite app_nil_r; simpl.
  destruct (processArtifacts _ w h) as [[e|artifacts] d1] eqn:E1.
  { by rewrite (bind_throws _ _ _ _ _ _ E1). }
  rewrite (bind_returns _ _ _ _ _ _ E1).
  destruct (executeDeployment _ artifacts w (h ++ d1)) as [[e|result] d2] eqn:E2.
  { by rewrite (bind_throws _ _ _ _ _ _ E2). }
  rewrite (bind_returns _ _ _ _ _ _ E2). rewrite <- ?app_assoc.
  destruct (write_summaries _ result w (h ++ d1 ++ d2)) as [[e|[]] d3] eqn:E3.
  { by rewrite (bind_throws _ _ _ _ _ _ E3). }
  rewrite (bind_returns _ _ _ _ _ _ E3). rewrite <- ?app_assoc.
  unfold new_Date, Date_now, bind, ret, request, success_report; simpl.
  rewrite <- ?app_assoc.
  destruct (codepipeline_putJobSuccessResult w _ _) as [e|[]]; simpl;
    by rewrite ?app_nil_r, <- ?app_assoc.
Qed.

Lemma handler_run job w h :
  handler_outcome w h job (handler {| CodePipeline_job := Some job |} w h).
Proof.
  unfold handler, try_catch. rewrite handler_try_run.
  destruct (processArtifacts _ w h) as [[e|artifacts] d1] eqn:E1.
  { destruct (handler_catch_run job e w (h ++ d1)) as [rej ->].
    by eapply fetch_failed. }
  destruct (executeDeployment _ artifacts w (h ++ d1)) as [[e|result] d2] eqn:E2.
  { destruct (handler_catch_run job e w (h ++ d1 ++ d2)) as [rej ->].
    rewrite <- ?app_assoc. by eapply dispatch_failed. }
  destruct (write_summaries _ result w (h ++ d1 ++ d2)) as [[e|[]] d3] eqn:E3.
  { destruct (handler_catch_run job e w (h ++ d1 ++ d2 ++ d3)) as [rej ->].
    rewrite <- ?app_assoc.
    by eapply summary_failed. }
  simpl.
  destruct (codepipeline_putJobSuccessResult w _ _) as [e|[]] eqn:E4.
  - match goal with |- context [handler_catch _ e w ?h'] =>
      destruct (handler_catch_run job e w h') as [rej ->] end.
    rewrite <- ?app_assoc.
    by eapply success_report_failed.
  - by eapply succeeded.
Qed.

(** ** Reports in a trace *)

Lemma reports_app d1 d2 : reports (d1 ++ d2) = reports d1 ++ reports d2.
Proof. apply omap_app. Qed.

Lemma rejected_app k d1 d2 :
  rejected k (d1 ++ d2) ↔ rejected k d1 ∨ rejected k d2.
Proof. apply Exists_app. Qed.

Lemma absent_kind (ks : list kind) k d :
  Forall (λ e, kind_of e ∈ ks) d → k ∉ ks → Forall (λ e, kind_of e ≠ k) d.
Proof.
  intros Hd Hk. eapply Forall_impl; [done |].
  intros e He Hek. apply Hk. by rewrite <- Hek.
Qed.

Lemma absent_calls k d : Forall (λ e, kind_of e ≠ k) d → calls k d = [].
Proof.
  unfold calls. induction 1 as [|e d He _ IH]; [done |].
  by rewrite filter_cons_False.
Qed.

Lemma absent_reports d :
  Forall (λ e, kind_of e ≠ PutJobSuccessResult) d →
  Forall (λ e, kind_of e ≠ PutJobFailureResult) d →
  reports d = [].
Proof.
  unfold reports. induction 1 as [|e d He _ IH]; [done |].
  intros Hf. apply Forall_cons in Hf as [He' Hf]. simpl.
  unfold report_of at 1. destruct (kind_of e); try done; by apply IH.
Qed.

Lemma absent_rejected k d :
  Forall (λ e, kind_of e ≠ k) d → ¬ rejected k d.
Proof.
  unfold rejected. rewrite <- Forall_Exists_neg.
  intros Hd. eapply Forall_impl; [done |]. simpl. tauto.
Qed.

Ltac solve_absent := rewrite !elem_of_cons, elem_of_nil; intuition discriminate.

(** The three stages of a job make no report. *)
Lemma stage_quiet {A} (ks : list kind) (m : M A) w h r d :
  stage ks m → PutJobSuccessResult ∉ ks → PutJobFailureResult ∉ ks →
  m w h = (r, d) → reports d = [] ∧ ¬ rejected PutJobSuccessResult d.
Proof.
  intros Hm Hs Hf E. destruct (Hm w h) as [Hk _]. rewrite E in Hk; simpl in Hk.
  split; [apply absent_reports | apply absent_rejected];
    by eapply absent_kind.
Qed.

Lemma processArtifacts_quiet inputArtifacts w h r d :
  processArtifacts inputArtifacts w h = (r, d) →
  reports d = [] ∧ ¬ rejected PutJobSuccessResult d.
Proof.
  apply (stage_quiet _ _ _ _ _ _ (stage_processArtifacts inputArtifacts));
    solve_absent.
Qed.

Lemma executeDeployment_quiet config artifacts w h r d :
  executeDeployment config artifacts w h = (r, d) →
  reports d = [] ∧ ¬ rejected PutJobSuccessResult d.
Proof.
  apply (stage_quiet _ _ _ _ _ _ (stage_executeDeployment config artifacts));
    solve_absent.
Qed.

Lemma write_summaries_quiet outputArtifacts result w h r d :
  write_summaries outputArtifacts result w h = (r, d) →
  reports d = [] ∧ ¬ rejected PutJobSuccessResult d.
Proof.
  apply (stage_quiet _ _ _ _ _ _ (stage_write_summaries outputArtifacts result));
    solve_absent.
Qed.

(** What a run of the handler reports, by outcome. *)
Lemma handler_outcome_reports w h job run :
  handler_outcome w h job run →
  (reports run.2 = [Success] ∧ returned run.1 ∧ ¬ rejected PutJobSuccessResult run.2) ∨
  (reports run.2 = [Failure] ∧ ¬ returned run.1 ∧ ¬ rejected PutJobSuccessResult run.2) ∨
  (reports run.2 = [Success; Failure] ∧ ¬ returned run.1 ∧ rejected PutJobSuccessResult run.2).
Proof.
  destruct 1 as [e d1 rej E1|artifacts d1 e d2 rej E1 E2
                |artifacts d1 result d2 e d3 rej E1 E2 E3
                |artifacts d1 result d2 d3 ms e rej E1 E2 E3
                |artifacts d1 result d2 d3 ms E1 E2 E3]; simpl;
    apply processArtifacts_quiet in E1 as [R1 S1];
    try apply executeDeployment_quiet in E2 as [R2 S2];
    try apply write_summaries_quiet in E3 as [R3 S3];
    rewrite !reports_app, ?R1, ?R2, ?R3, !rejected_app; simpl;
    unfold rejected in *.
  all: rewrite ?Exists_cons, Exists_nil; simpl.
  - right; left. split_and!; [done | tauto | intuition discriminate].
  - right; left. split_and!; [done | tauto | intuition discriminate].
  - right; left. split_and!; [done | tauto | intuition discriminate].
  - right; right. split_and!; [done | tauto |]. do 3 right. right; left. done.
  - left. split_and!; [done | done | intuition discriminate].
Qed.

(** ** C9: an event without a job *)

(** C9. When the event has no ['CodePipeline.job'] field, the handler throws
    the [TypeError] of reading [.id] of [undefined] to its caller and makes
    no request at all, so neither the success report nor the failure
    report. *)
Theorem handler_without_job w h :
  handler {| CodePipeline_job := None |} w h
  = (inl (TypeError "Cannot read properties of undefined (reading 'id')"), [])
  ∧ reports (handler {| CodePipeline_job := None |} w h).2 = [].
Proof. done. Qed.

(** ** C1: the terminal reports of a job *)

(** C1, as stated, fails: when the pipeline rejects the success report, the
    [catch] block of the handler makes the failure report as well.  On the
    job of the test suite, in a world that rejects [putJobSuccessResult],
    the handler makes both reports, the success report first. *)
Lemma rejected_success_report_is_followed_by_failure_report :
  reports (handler (test_event ["BuildArtifact"] [] ∅) throttled_world []).2
  = [Success; Failure]
  ∧ ¬ exactly_one_report
        (handler (test_event ["BuildArtifact"] [] ∅) throttled_world []).2.
Proof. split; vm_compute; [reflexivity | discriminate]. Qed.

(** C1, amended.  For every event that carries a job, whatever the services
    answer: the handler makes the success report at most once and the
    failure report at most once, and at least one of the two; it makes
    exactly one report unless the success report itself is rejected, and in
    that case it makes the failure report after it.  The handler returns
    exactly when the success report is the only report. *)
Theorem handler_reports w h job :
  let run := handler {| CodePipeline_job := Some job |} w h in
  (reports run.2 = [Success] ∨ reports run.2 = [Failure]
   ∨ reports run.2 = [Success; Failure])
  ∧ (¬ rejected PutJobSuccessResult run.2 ↔ exactly_one_report run.2)
  ∧ (rejected PutJobSuccessResult run.2 ↔ reports run.2 = [Success; Failure])
  ∧ (returned run.1 ↔ reports run.2 = [Success]).
Proof.
  intros run. unfold exactly_one_report.
  destruct (handler_outcome_reports _ _ _ _ (handler_run job w h))
    as [(R & Hr & Hs)|[(R & Hr & Hs)|(R & Hr & Hs)]];
    fold run in R, Hr, Hs; rewrite R; simpl;
    split_and!; try tauto; try (split; intros; try done; congruence).
Qed.

(** ** C8: artifact resolution *)

Lemma artifacts_lookup_unfold (artifacts : Artifacts) k :
  artifacts !! k
  = if decide (k = "__proto__") then prototype artifacts else own artifacts !! k.
Proof. reflexivity. Qed.

(** Reading back the name that was assigned, and any other name. *)
Lemma lookup_assign_eq name payload artifacts :
  assign name payload artifacts !! name = Some payload.
Proof.
  rewrite artifacts_lookup_unfold. unfold assign.
  case_decide; simpl; [done |]. by rewrite lookup_insert_eq.
Qed.

Lemma lookup_assign_ne name k payload artifacts :
  name ≠ k → assign name payload artifacts !! k = artifacts !! k.
Proof.
  intros Hne. rewrite !artifacts_lookup_unfold. unfold assign.
  repeat case_decide; simpl; try done; try congruence.
  by rewrite lookup_insert_ne.
Qed.

(** The loop either fetches every artifact, in order, and returns the
    object with every name assigned, or stops at the first rejected fetch
    and throws its error. *)
Lemma processArtifacts_loop_run inputArtifacts artifacts w h :
  match processArtifacts_loop inputArtifacts artifacts w h with
  | (inr artifacts', d) =>
      d = (λ a, fetch a None) <$> inputArtifacts
      ∧ (∀ k, is_Some (own artifacts' !! k)
              ↔ is_Some (own artifacts !! k)
                ∨ k ∈ name <$> inputArtifacts ∧ k ≠ "__proto__")
      ∧ (is_Some (prototype artifacts')
         ↔ is_Some (prototype artifacts) ∨ "__proto__" ∈ name <$> inputArtifacts)
  | (inl e, d) =>
      ∃ done artifact rest,
        inputArtifacts = done ++ artifact :: rest
        ∧ d = ((λ a, fetch a None) <$> done) ++ [fetch artifact (Some e)]
  end.
Proof.
  revert artifacts h.
  induction inputArtifacts as [|artifact rest IH]; intros artifacts h; simpl.
  { split; [done |]. split; [intros k|]; rewrite elem_of_nil; tauto. }
  unfold bind, request.
  destruct (s3_getObject w h _) as [e|artifactData].
  { exists [], artifact, rest. done. }
  match goal with |- context [processArtifacts_loop rest ?acc w ?h'] =>
    specialize (IH acc h');
    destruct (processArtifacts_loop rest acc w h') as [[e|artifacts'] d]
  end.
  - destruct IH as (done & a & rest' & -> & ->).
    exists (artifact :: done), a, rest'. done.
  - destruct IH as (-> & Hown & Hproto). split; [done |].
    unfold assign in Hown, Hproto. split.
    + intros k. rewrite Hown, elem_of_cons.
      case_decide as Hname; simpl.
      * intuition congruence.
      * rewrite lookup_insert_is_Some.
        destruct (decide (name artifact = k)) as [<-|]; intuition congruence.
    + rewrite Hproto, elem_of_cons.
      case_decide as Hname; simpl; [|intuition congruence].
      split; [by right; left | by left].
Qed.

(** Every name that was assigned reads back an entry. *)
Lemma processArtifacts_loop_entries inputArtifacts artifacts w h artifacts' d :
  processArtifacts_loop inputArtifacts artifacts w h = (inr artifacts', d) →
  ∀ k, is_Some (artifacts !! k) ∨ k ∈ name <$> inputArtifacts →
       is_Some (artifacts' !! k).
Proof.
  revert artifacts h d.
  induction inputArtifacts as [|artifact rest IH]; intros artifacts h d; simpl.
  { intros [= <- _] k [Hk|Hk]; [done | by apply elem_of_nil in Hk]. }
  unfold bind, request.
  destruct (s3_getObject w h _) as [e|artifactData]; [done |].
  match goal with |- context [processArtifacts_loop rest ?acc w ?h'] =>
    destruct (processArtifacts_loop rest acc w h') as [r d'] eqn:E
  end.
  intros [= -> _] k Hk. apply (IH _ _ _ E).
  rewrite elem_of_cons in Hk.
  destruct (decide (name artifact = k)) as [<-|Hne].
  - left. by rewrite lookup_assign_eq.
  - rewrite lookup_assign_ne by done. intuition congruence.
Qed.

(** C8. Artifact resolution is all or nothing.  If every fetch is
    fulfilled, [processArtifacts] has fetched every reference, in order, and
    returns an object in which the name of each reference reads back an
    entry: the names other than [__proto__] are its own properties, and it
    has no others; a reference named [__proto__] is held as the prototype of
    the object, which is replaced only then.  If a fetch is rejected, it is
    the last request made, and [processArtifacts] throws the error of that
    fetch: no object is returned. *)
Theorem processArtifacts_all_or_nothing inputArtifacts w h :
  let run := processArtifacts inputArtifacts w h in
  (Forall fulfilled run.2 →
     ∃ artifacts,
       run = (inr artifacts, (λ a, fetch a None) <$> inputArtifacts)
       ∧ (∀ artifact, artifact ∈ inputArtifacts →
            is_Some (artifacts !! name artifact))
       ∧ (∀ k, is_Some (own artifacts !! k)
               ↔ k ∈ name <$> inputArtifacts ∧ k ≠ "__proto__")
       ∧ (is_Some (prototype artifacts)
          ↔ "__proto__" ∈ name <$> inputArtifacts))
  ∧ (∀ c e, Called c (Some e) ∈ run.2 →
       ∃ done artifact rest,
         inputArtifacts = done ++ artifact :: rest
         ∧ run = (inl e, ((λ a, fetch a None) <$> done) ++ [fetch artifact (Some e)])).
Proof.
  intros run. subst run. unfold processArtifacts.
  pose proof (processArtifacts_loop_run inputArtifacts empty_object w h) as Hrun.
  pose proof (processArtifacts_loop_entries inputArtifacts empty_object w h)
    as Hentries.
  destruct (processArtifacts_loop inputArtifacts empty_object w h)
    as [[e|artifacts] d]; simpl.
  - destruct Hrun as (done & artifact & rest & -> & ->). split.
    + intros Hf. apply Forall_app in Hf as [_ Hf].
      apply Forall_cons in Hf as [Hf _]. done.
    + intros c e' Hin. exists done, artifact, rest. split; [done |].
      apply elem_of_app in Hin as [Hin|Hin].
      * apply list_elem_of_fmap in Hin as (a & Ha & _). done.
      * apply list_elem_of_singleton in Hin. by injection Hin as -> ->.
  - destruct Hrun as (-> & Hown & Hproto). split.
    + intros _. exists artifacts. split_and!; [done | | |].
      * intros artifact Hin. apply (Hentries _ _ eq_refl). right.
        by apply list_elem_of_fmap_2.
      * intros k. rewrite Hown. simpl. rewrite lookup_empty.
        split; [|by right]. intros [[? ?]|?]; done.
      * rewrite Hproto. simpl. split; [|by right]. intros [[? ?]|?]; done.
    + intros c e Hin. apply list_elem_of_fmap in Hin as (a & Ha & _). done.
Qed.

(** An input artifact named [__proto__] is fetched like any other and
    becomes the prototype of the object, which gets no property. *)
Example artifact_named_proto :
  processArtifacts [test_artifact "__proto__"] test_world []
  = (inr {| own := ∅; prototype := Some test_payload |},
     [fetch (test_artifact "__proto__") None]).
Proof. vm_compute. reflexivity. Qed.

(** ** C7: the summaries are written before the success report *)

(** [updateOutputArtifacts] either writes the summary of every artifact, in
    order, or stops at the first rejected write and throws its error. *)
Lemma updateOutputArtifacts_run outputArtifacts result w h :
  match updateOutputArtifacts outputArtifacts result w h with
  | (inr _, d) =>
      ∃ times,
        length times = length outputArtifacts
        ∧ d = summary_writes result outputArtifacts times
  | (inl e, d) =>
      ∃ done artifact rest times ms,
        outputArtifacts = done ++ artifact :: rest
        ∧ length times = length done
        ∧ d = summary_writes result done times
              ++ summary_write result artifact ms (Some e)
  end.
Proof.
  revert h. induction outputArtifacts as [|artifact rest IH]; intros h; simpl.
  { by exists []. }
  unfold new_Date, Date_now, bind, ret, request; simpl.
  destruct (s3_putObject w _ _) as [e|[]]; simpl.
  { exists [], artifact, rest, [], (now w h). done. }
  match goal with |- context [updateOutputArtifacts rest result w ?h'] =>
    specialize (IH h');
    destruct (updateOutputArtifacts rest result w h') as [[e|[]] d]
  end.
  - destruct IH as (done & a & rest' & times & ms & -> & Hlen & ->).
    exists (artifact :: done), a, rest', (now w h :: times), ms.
    simpl. by rewrite Hlen.
  - destruct IH as (times & Hlen & ->).
    exists (now w h :: times). simpl. by rewrite Hlen.
Qed.

Lemma write_summaries_run outputArtifacts result w h d :
  write_summaries outputArtifacts result w h = (inr (), d) →
  ∃ times,
    length times = length (default [] outputArtifacts)
    ∧ d = summary_writes result (default [] outputArtifacts) times.
Proof.
  unfold write_summaries. destruct (nonempty outputArtifacts) eqn:Hne.
  - intros E.
    pose proof (updateOutputArtifacts_run (default [] outputArtifacts) result w h)
      as Hrun.
    by rewrite E in Hrun.
  - intros [= <-]. exists [].
    by destruct outputArtifacts as [[|??]|].
Qed.

Lemma in_stage {A} (ks : list kind) (m : M A) w h r d e :
  stage ks m → m w h = (r, d) → e ∈ d → kind_of e ∈ ks.
Proof.
  intros Hm E He. destruct (Hm w h) as [Hk _]. rewrite E in Hk.
  by eapply Forall_forall in Hk.
Qed.

(** A rejected request of a stage shows in a run of the handler only when
    that stage threw: the rejected request is in what the throwing stage
    appended, the failure report is the only report, and the handler
    throws. *)
Lemma handler_outcome_rejected w h job run x :
  handler_outcome w h job run →
  x ∈ run.2 → rejection x ≠ None →
  kind_of x ≠ PutJobSuccessResult → kind_of x ≠ PutJobFailureResult →
  ∃ e rej before d,
    run = (inl (default e rej), before ++ d ++ [failure_report job e rej])
    ∧ x ∈ d
    ∧ reports run.2 = [Failure]
    ∧ ((before = [] ∧ processArtifacts (inputArtifacts (data job)) w h = (inl e, d))
       ∨ (∃ artifacts,
            processArtifacts (inputArtifacts (data job)) w h = (inr artifacts, before)
            ∧ executeDeployment (deployment_config (process_env w) (data job))
                artifacts w (h ++ before) = (inl e, d))
       ∨ (∃ result, write_summaries (outputArtifacts (data job)) result w
                      (h ++ before) = (inl e, d))).
Proof.
  intros Hrun Hx Hrej Hs Hf.
  assert (Hret : ∀ d, x ∈ d → Forall fulfilled d → False).
  { intros d Hd Hall. by eapply Forall_forall in Hall. }
  destruct Hrun
    as [e d1 rej E1|artifacts d1 e d2 rej E1 E2
       |artifacts d1 result d2 e d3 rej E1 E2 E3
       |artifacts d1 result d2 d3 ms e rej E1 E2 E3
       |artifacts d1 result d2 d3 ms E1 E2 E3]; simpl in *;
    pose proof (processArtifacts_quiet _ _ _ _ _ E1) as [R1 _];
    try pose proof (executeDeployment_quiet _ _ _ _ _ _ E2) as [R2 _];
    try pose proof (write_summaries_quiet _ _ _ _ _ _ E3) as [R3 _];
    try (pose proof (stage_processArtifacts (inputArtifacts (data job)) w h)
           as [_ N1]; rewrite E1 in N1; simpl in N1; specialize (N1 I));
    try (pose proof (stage_executeDeployment
                       (deployment_config (process_env w) (data job))
                       artifacts w (h ++ d1)) as [_ N2];
         rewrite E2 in N2; simpl in N2; specialize (N2 I));
    try (pose proof (stage_write_summaries (outputArtifacts (data job)) result
                       w (h ++ d1 ++ d2)) as [_ N3];
         rewrite E3 in N3; simpl in N3; specialize (N3 I));
    rewrite !reports_app, ?R1, ?R2, ?R3; simpl;
    rewrite !elem_of_app, ?elem_of_cons, elem_of_nil in Hx;
    destruct_or!; subst; try done; try (exfalso; eauto; fail).
  - exists e, rej, [], d1. split_and!; [done | done | done | by left].
  - exists e, rej, d1, d2. split_and!; [done | done | done |].
    right; left. by exists artifacts.
  - exists e, rej, (d1 ++ d2), d3.
    split_and!; [by rewrite <- !app_assoc | done | done |].
    right; right. by exists result.
Qed.

(** C7. In every run of the handler on a job: if the success report is
    made, then the run is the fetches of the artifacts, the dispatch of the
    object they gave, and then, just before the success report (only the
    reading of the clock for [deploymentTime] lies between), for every
    declared output artifact in order a fulfilled write to its location of
    the summary that carries the result this dispatch returned, a timestamp
    and the status "SUCCESS"; no other summary is written.  And if a
    write of a summary is rejected, the job is reported as failed: the
    failure report is the only report and the handler throws. *)
Theorem summaries_precede_success_report w h job :
  let run := handler {| CodePipeline_job := Some job |} w h in
  let outputs := default [] (outputArtifacts (data job)) in
  (Success ∈ reports run.2 →
     ∃ artifacts d1 result d2 times ms rej after,
       processArtifacts (inputArtifacts (data job)) w h = (inr artifacts, d1)
       ∧ executeDeployment (deployment_config (process_env w) (data job))
           artifacts w (h ++ d1) = (inr result, d2)
       ∧ length times = length outputs
       ∧ calls PutObject (d1 ++ d2) = []
       ∧ run.2 = d1 ++ d2 ++ summary_writes result outputs times
                 ++ [Clock ms; success_report job result ms rej] ++ after
       ∧ calls PutObject after = [])
  ∧ (rejected PutObject run.2 →
       reports run.2 = [Failure] ∧ ¬ returned run.1).
Proof.
  intros run outputs. split.
  - subst run outputs.
    destruct (handler_run job w h)
      as [e d1 rej E1|artifacts d1 e d2 rej E1 E2
         |artifacts d1 result d2 e d3 rej E1 E2 E3
         |artifacts d1 result d2 d3 ms e rej E1 E2 E3
         |artifacts d1 result d2 d3 ms E1 E2 E3]; simpl;
      pose proof (processArtifacts_quiet _ _ _ _ _ E1) as [R1 _];
      try pose proof (executeDeployment_quiet _ _ _ _ _ _ E2) as [R2 _];
      try pose proof (write_summaries_quiet _ _ _ _ _ _ E3) as [R3 _];
      rewrite !reports_app, ?R1, ?R2, ?R3; simpl;
      try (by intros ?%list_elem_of_singleton); intros _;
      apply write_summaries_run in E3 as (times & Hlen & ->).
    + exists artifacts, d1, result, d2, times, ms, (Some e),
        [failure_report job e rej].
      split_and!; [done | done | done | | done | done].
      unfold calls. rewrite filter_app. fold (calls PutObject d1) (calls PutObject d2).
      rewrite !absent_calls; [done | |].
      * pose proof (stage_executeDeployment
                      (deployment_config (process_env w) (data job)) artifacts
                      w (h ++ d1)) as [Hk _].
        rewrite E2 in Hk. eapply absent_kind; [apply Hk | solve_absent].
      * pose proof (stage_processArtifacts (inputArtifacts (data job)) w h)
          as [Hk _].
        rewrite E1 in Hk. eapply absent_kind; [apply Hk | solve_absent].
    + exists artifacts, d1, result, d2, times, ms, None, [].
      split_and!; [done | done | done | | done | done].
      unfold calls. rewrite filter_app. fold (calls PutObject d1) (calls PutObject d2).
      rewrite !absent_calls; [done | |].
      * pose proof (stage_executeDeployment
                      (deployment_config (process_env w) (data job)) artifacts
                      w (h ++ d1)) as [Hk _].
        rewrite E2 in Hk. eapply absent_kind; [apply Hk | solve_absent].
      * pose proof (stage_processArtifacts (inputArtifacts (data job)) w h)
          as [Hk _].
        rewrite E1 in Hk. eapply absent_kind; [apply Hk | solve_absent].
  - intros (x & Hx & Hk & Hrej)%Exists_exists.
    destruct (handler_outcome_rejected _ _ _ _ x (handler_run job w h))
      as (e & rej & before & d & Hrun & _ & R & _);
      [done | done | by rewrite Hk | by rewrite Hk |].
    split; [done |]. subst run. rewrite Hrun. simpl. tauto.
Qed.

(** A job with one output artifact, in a world whose object store rejects
    the write of the summary: the job is reported as failed. *)
Lemma summaries_precede_success_report_witness :
  reports
    (handler (test_event ["BuildArtifact"] [test_artifact "Summary"] ∅)
       readonly_world []).2
  = [Failure].
Proof.
  apply (summaries_precede_success_report readonly_world []
           (test_job "test-job-id" ["BuildArtifact"] [test_artifact "Summary"] ∅)).
  apply Exists_exists.
  exists (Called
            (S3_putObject "test-bucket" "test-key"
               {| summary_deploymentResult :=
                    LambdaResult
                      (Some "arn:aws:lambda:us-east-1:123456789012:function:test")
                      (Some "1") (Some "2023-01-01T00:00:00.000Z");
                  summary_timestamp := {| getTime := 1700000000000 |};
                  summary_status := "SUCCESS" |}
               "application/json")
            (Some (Error "AccessDenied"))).
  split; [|split; [reflexivity | discriminate]].
  vm_compute. do 6 apply list_elem_of_further. apply list_elem_of_here.
Defined.

(** ** The backends *)

(** [deployToLambda], request by request, when an application artifact is
    there. *)
Lemma deployToLambda_run config artifacts appArtifact w h :
  or_else (artifacts !! "BuildArtifact") (artifacts !! "SourceOutput")
  = Some appArtifact →
  deployToLambda config artifacts w h =
  let targetFunction := config !! "targetFunction" in
  let code := Lambda_updateFunctionCode targetFunction (payload_data appArtifact) in
  let wait := Lambda_waitFor "functionUpdated" targetFunction in
  match lambda_updateFunctionCode w h code with
  | inl e =>
      (inl (Error ("Lambda deployment failed: " +:+ message e)),
       [Called code (Some e)])
  | inr updateResult =>
      let result := LambdaResult (FunctionArn updateResult) (Version updateResult)
                      (LastModified updateResult) in
      match lambda_waitFor w (h ++ [Called code None]) wait with
      | inl e =>
          (inl (Error ("Lambda deployment failed: " +:+ message e)),
           [Called code None; Called wait (Some e)])
      | inr _ =>
          if decide (config !! "environment" ≠ Some "production") then
            let ms := now w (h ++ [Called code None; Called wait None]) in
            let configure :=
              Lambda_updateFunctionConfiguration targetFunction
                (config !! "environment") {| getTime := ms |} in
            match lambda_updateFunctionConfiguration w
                    (h ++ [Called code None; Called wait None; Clock ms])
                    configure with
            | inl e =>
                (inl (Error ("Lambda deployment failed: " +:+ message e)),
                 [Called code None; Called wait None; Clock ms;
                  Called configure (Some e)])
            | inr _ =>
                (inr result,
                 [Called code None; Called wait None; Clock ms;
                  Called configure None])
            end
          else (inr result, [Called code None; Called wait None])
      end
  end.
Proof.
  intros Happ. unfold deployToLambda. rewrite Happ, try_catch_rethrow.
  unfold bind, request, new_Date, Date_now, ret; simpl.
  destruct (lambda_updateFunctionCode w h _) as [e|updateResult]; [done |].
  destruct (lambda_waitFor w _ _) as [e|[]]; [done |].
  case_decide; [|done]. simpl. rewrite <- !app_assoc. simpl.
  by destruct (lambda_updateFunctionConfiguration w _ _) as [e|[]].
Qed.

Lemma deployToLambda_missing config artifacts w h :
  artifacts !! "BuildArtifact" = None → artifacts !! "SourceOutput" = None →
  deployToLambda config artifacts w h
  = (inl (Error "No application artifact found for Lambda deployment"), []).
Proof. intros H1 H2. unfold deployToLambda. by rewrite H1, H2. Qed.

Lemma deployToS3_missing config artifacts w h :
  artifacts !! "BuildArtifact" = None → artifacts !! "SourceOutput" = None →
  deployToS3 config artifacts w h
  = (inl (Error "S3 deployment failed: No application artifact found for S3 deployment"),
     []).
Proof.
  intros H1 H2. unfold deployToS3. by rewrite try_catch_rethrow, H1, H2.
Qed.

(** [deployToS3], request by request, when an application artifact is
    there. *)
Lemma deployToS3_run config artifacts appArtifact w h :
  or_else (artifacts !! "BuildArtifact") (artifacts !! "SourceOutput")
  = Some appArtifact →
  deployToS3 config artifacts w h =
  let ms := now w h in
  let upload := S3_upload (config !! "bucketName") (deployment_key ms)
                  (payload_data appArtifact) "application/zip" in
  match s3_upload w (h ++ [Clock ms]) upload with
  | inl e =>
      (inl (Error ("S3 deployment failed: " +:+ message e)),
       [Clock ms; Called upload (Some e)])
  | inr uploadResult =>
      (inr (S3Result (Location uploadResult) (ETag uploadResult)),
       [Clock ms; Called upload None])
  end.
Proof.
  intros Happ. unfold deployToS3. rewrite Happ, try_catch_rethrow.
  unfold bind, request, Date_now, ret; simpl.
  by destruct (s3_upload w _ _) as [e|uploadResult].
Qed.

(** [deployToECS], request by request. *)
Lemma deployToECS_run config artifacts w h :
  deployToECS config artifacts w h =
  let update := ECS_updateService (or_default (config !! "clusterName") "default")
                  (config !! "serviceName") true in
  match ecs_updateService w h update with
  | inl e =>
      (inl (Error ("ECS deployment failed: " +:+ message e)),
       [Called update (Some e)])
  | inr updateResult =>
      match service updateResult with
      | None =>
          (inl (Error "ECS deployment failed: Cannot read properties of undefined (reading 'serviceArn')"),
           [Called update None])
      | Some svc =>
          (inr (ECSResult (serviceArn svc) (taskDefinition svc)),
           [Called update None])
      end
  end.
Proof.
  unfold deployToECS. rewrite try_catch_rethrow.
  unfold bind, request, ret, throw; simpl.
  destruct (ecs_updateService w h _) as [e|updateResult]; [done |].
  by destruct (service updateResult).
Qed.

(** When a stage throws, the handler makes the failure report with the
    message of the error, and throws. *)
Lemma handler_dispatch_failed w h job artifacts d1 e d2 :
  processArtifacts (inputArtifacts (data job)) w h = (inr artifacts, d1) →
  executeDeployment (deployment_config (process_env w) (data job)) artifacts
    w (h ++ d1) = (inl e, d2) →
  ∃ rej,
    handler {| CodePipeline_job := Some job |} w h
    = (inl (default e rej), d1 ++ d2 ++ [failure_report job e rej]).
Proof.
  intros E1 E2. unfold handler, try_catch. rewrite handler_try_run, E1, E2.
  destruct (handler_catch_run job e w (h ++ d1 ++ d2)) as [rej ->].
  exists rej. by rewrite <- app_assoc.
Qed.

Lemma handler_fetch_failed w h job e d1 :
  processArtifacts (inputArtifacts (data job)) w h = (inl e, d1) →
  ∃ rej,
    handler {| CodePipeline_job := Some job |} w h
    = (inl (default e rej), d1 ++ [failure_report job e rej]).
Proof.
  intros E1. unfold handler, try_catch. rewrite handler_try_run, E1.
  destruct (handler_catch_run job e w (h ++ d1)) as [rej ->]. by exists rej.
Qed.

(** ** C6: no application artifact *)

(** C6. With a mapping of artifacts that has neither [BuildArtifact] nor
    [SourceOutput], the function-update backend and the static-artifact
    backend throw the missing-artifact error without making a request (the
    static-artifact backend wraps the message in its own); and a handler
    that dispatches this mapping to one of these two backends makes the
    failure report with that message, as its only report, and throws. *)
Theorem missing_artifact_is_reported (artifacts : Artifacts) :
  artifacts !! "BuildArtifact" = None →
  artifacts !! "SourceOutput" = None →
  (∀ config w h,
     deployToLambda config artifacts w h
     = (inl (Error "No application artifact found for Lambda deployment"), []))
  ∧ (∀ config w h,
       deployToS3 config artifacts w h
       = (inl (Error "S3 deployment failed: No application artifact found for S3 deployment"),
          []))
  ∧ (∀ w h job d1,
       processArtifacts (inputArtifacts (data job)) w h = (inr artifacts, d1) →
       deployment_config (process_env w) (data job) !! "deploymentType"
         = Some "lambda"
       ∨ deployment_config (process_env w) (data job) !! "deploymentType"
         = Some "s3" →
       ∃ error rej,
         (error = Error "No application artifact found for Lambda deployment"
          ∨ error = Error "S3 deployment failed: No application artifact found for S3 deployment")
         ∧ handler {| CodePipeline_job := Some job |} w h
           = (inl (default error rej), d1 ++ [failure_report job error rej])
         ∧ reports (handler {| CodePipeline_job := Some job |} w h).2 = [Failure]).
Proof.
  intros H1 H2. split_and!.
  - intros. by apply deployToLambda_missing.
  - intros. by apply deployToS3_missing.
  - intros w h job d1 E1 Hty.
    assert (∃ error,
      (error = Error "No application artifact found for Lambda deployment"
       ∨ error = Error "S3 deployment failed: No application artifact found for S3 deployment")
      ∧ executeDeployment (deployment_config (process_env w) (data job))
          artifacts w (h ++ d1) = (inl error, [])) as (error & Herr & E2).
    { unfold executeDeployment. destruct Hty as [Hty|Hty]; rewrite Hty.
      - rewrite decide_True by done. eexists. split; [by left |].
        by apply deployToLambda_missing.
      - rewrite decide_False, decide_False, decide_True by done.
        eexists. split; [by right |]. by apply deployToS3_missing. }
    destruct (handler_dispatch_failed _ _ _ _ _ _ _ E1 E2) as [rej Hrun].
    exists error, rej. split_and!; [done | done |].
    rewrite Hrun; simpl. rewrite reports_app.
    apply processArtifacts_quiet in E1 as [-> _]. done.
Qed.

(** The job of the test suite with an input artifact of another name: the
    handler reports the failure, once. *)
Lemma missing_artifact_is_reported_witness :
  ∃ error rej,
    handler (test_event ["TestOutput"] [] ∅) test_world []
    = (inl (default error rej),
       [fetch (test_artifact "TestOutput") None]
       ++ [failure_report (test_job "test-job-id" ["TestOutput"] [] ∅) error rej])
    ∧ reports (handler (test_event ["TestOutput"] [] ∅) test_world []).2 = [Failure].
Proof.
  assert (H1 : object_with {["TestOutput" := test_payload]} !! "BuildArtifact"
               = None) by (vm_compute; reflexivity).
  assert (H2 : object_with {["TestOutput" := test_payload]} !! "SourceOutput"
               = None) by (vm_compute; reflexivity).
  destruct (missing_artifact_is_reported _ H1 H2) as (_ & _ & Hhandler).
  assert (E1 : processArtifacts
                 (inputArtifacts (data (test_job "test-job-id" ["TestOutput"] [] ∅)))
                 test_world []
               = (inr (object_with {["TestOutput" := test_payload]}),
                  [fetch (test_artifact "TestOutput") None]))
    by (vm_compute; reflexivity).
  assert (Hty : deployment_config (process_env test_world)
                  (data (test_job "test-job-id" ["TestOutput"] [] ∅))
                  !! "deploymentType" = Some "lambda") by (vm_compute; reflexivity).
  destruct (Hhandler test_world [] _ _ E1 (or_introl Hty))
    as (error & rej & _ & Hrun & Hreports).
  exists error, rej. split; [exact Hrun | exact Hreports].
Defined.

(** ** C3: a deployment type outside the closed set *)

Lemma deployment_type_resolved env jobData :
  is_Some (deployment_config env jobData !! "deploymentType").
Proof.
  unfold deployment_config, Object_assign.
  destruct (actionConfiguration jobData ≫= configuration) as [actionConfig|].
  - rewrite lookup_union. rewrite lookup_insert_eq.
    by destruct (delete "__proto__" actionConfig !! "deploymentType").
  - by rewrite lookup_insert_eq.
Qed.

(** C3, as stated, fails: the configuration is not validated when it is
    resolved.  For the job of the test suite with deployment type
    ["carrier-pigeon"], [getDeploymentConfig] returns a configuration, and
    the handler fetches the input artifact before it fails. *)
Lemma unsupported_type_is_resolved_and_artifacts_are_fetched :
  getDeploymentConfig
    (data (test_job "test-job-id" ["BuildArtifact"] []
             {["deploymentType" := "carrier-pigeon"]}))
    test_world []
  = (inr (deployment_config (process_env test_world)
            (data (test_job "test-job-id" ["BuildArtifact"] []
                     {["deploymentType" := "carrier-pigeon"]}))), [])
  ∧ deployment_config (process_env test_world)
      (data (test_job "test-job-id" ["BuildArtifact"] []
               {["deploymentType" := "carrier-pigeon"]}))
      !! "deploymentType" = Some "carrier-pigeon"
  ∧ calls GetObject
      (handler
         (test_event ["BuildArtifact"] [] {["deploymentType" := "carrier-pigeon"]})
         test_world []).2
    = [fetch (test_artifact "BuildArtifact") None].
Proof. split_and!; [reflexivity | vm_compute; reflexivity..]. Qed.

(** C3, amended.  For a job whose resolved deployment type is none of
    ["lambda"], ["ecs"], ["s3"] (it is never absent: the default is
    ["lambda"]), config resolution returns the configuration and makes no
    request; the handler then resolves the input artifacts, and only the
    dispatch rejects the type: what the handler appends to the history is
    what [processArtifacts] appends, followed by the failure report.  When
    every fetch is fulfilled, every input artifact has been fetched and the
    reported error is "Unsupported deployment type: " followed by the
    type. *)
Theorem unsupported_type_is_rejected_at_dispatch w h job :
  deployment_config (process_env w) (data job) !! "deploymentType" ≠ Some "lambda" →
  deployment_config (process_env w) (data job) !! "deploymentType" ≠ Some "ecs" →
  deployment_config (process_env w) (data job) !! "deploymentType" ≠ Some "s3" →
  ∃ deploymentType error rej,
    deployment_config (process_env w) (data job) !! "deploymentType"
    = Some deploymentType
    ∧ getDeploymentConfig (data job) w h
      = (inr (deployment_config (process_env w) (data job)), [])
    ∧ handler {| CodePipeline_job := Some job |} w h
      = (inl (default error rej),
         (processArtifacts (inputArtifacts (data job)) w h).2
         ++ [failure_report job error rej])
    ∧ (returned (processArtifacts (inputArtifacts (data job)) w h).1 →
         (processArtifacts (inputArtifacts (data job)) w h).2
         = (λ a, fetch a None) <$> inputArtifacts (data job)
         ∧ error = Error ("Unsupported deployment type: " +:+ deploymentType))
    ∧ reports (handler {| CodePipeline_job := Some job |} w h).2 = [Failure].
Proof.
  intros Hl He Hs.
  destruct (deployment_type_resolved (process_env w) (data job)) as [ty Hty].
  exists ty.
  destruct (processArtifacts (inputArtifacts (data job)) w h)
    as [[e|artifacts] d1] eqn:E1.
  - destruct (handler_fetch_failed _ _ _ _ _ E1) as [rej Hrun].
    exists e, rej. rewrite Hrun; simpl.
    split_and!; [done | done | done | intros [] |].
    rewrite reports_app. by apply processArtifacts_quiet in E1 as [-> _].
  - assert (E2 : executeDeployment (deployment_config (process_env w) (data job))
                   artifacts w (h ++ d1)
                 = (inl (Error ("Unsupported deployment type: " +:+ ty)), [])).
    { unfold executeDeployment. rewrite !decide_False by done. by rewrite Hty. }
    destruct (handler_dispatch_failed _ _ _ _ _ _ _ E1 E2) as [rej Hrun].
    exists (Error ("Unsupported deployment type: " +:+ ty)), rej.
    rewrite Hrun; simpl. split_and!; [done | done | done | |].
    + intros _. split; [|done].
      pose proof (processArtifacts_loop_run (inputArtifacts (data job))
                    empty_object w h) as Hloop.
      unfold processArtifacts in E1. rewrite E1 in Hloop. by destruct Hloop.
    + rewrite reports_app. by apply processArtifacts_quiet in E1 as [-> _].
Qed.

Lemma unsupported_type_is_rejected_at_dispatch_witness :
  ∃ rej,
    handler (test_event ["BuildArtifact"] [] {["deploymentType" := "carrier-pigeon"]})
      test_world []
    = (inl (default (Error "Unsupported deployment type: carrier-pigeon") rej),
       [fetch (test_artifact "BuildArtifact") None;
        failure_report
          (test_job "test-job-id" ["BuildArtifact"] []
             {["deploymentType" := "carrier-pigeon"]})
          (Error "Unsupported deployment type: carrier-pigeon") rej]).
Proof.
  destruct (unsupported_type_is_rejected_at_dispatch test_world []
              (test_job "test-job-id" ["BuildArtifact"] []
                 {["deploymentType" := "carrier-pigeon"]}))
    as (ty & error & rej & Hty & _ & Hrun & Herror & _);
    [vm_compute; discriminate | vm_compute; discriminate
    | vm_compute; discriminate |].
  destruct Herror as [_ ->]; [vm_compute; exact I |].
  vm_compute in Hty. injection Hty as <-.
  exists rej. exact Hrun.
Defined.

(** ** C2: the update of the function's configuration *)

(** A rejected configuration update makes [deployToLambda] throw, and is
    only attempted outside production. *)
Lemma deployToLambda_rejected_configuration config artifacts w h r d c e :
  deployToLambda config artifacts w h = (r, d) →
  Called c (Some e) ∈ d →
  kind_of_call c = UpdateFunctionConfiguration →
  r = inl (Error ("Lambda deployment failed: " +:+ message e))
  ∧ config !! "environment" ≠ Some "production".
Proof.
  destruct (or_else (artifacts !! "BuildArtifact") (artifacts !! "SourceOutput"))
    as [appArtifact|] eqn:Happ.
  - rewrite (deployToLambda_run _ _ _ _ _ Happ); simpl.
    destruct (lambda_updateFunctionCode w h _) as [e1|updateResult].
    { intros [= <- <-] Hin Hk. apply list_elem_of_singleton in Hin.
      by injection Hin as -> _. }
    destruct (lambda_waitFor w _ _) as [e2|[]].
    { intros [= <- <-] Hin Hk.
      rewrite !elem_of_cons, elem_of_nil in Hin.
      destruct Hin as [Hin|[Hin|[]]]; [done | by injection Hin as -> _]. }
    case_decide as Henv; cycle 1.
    { intros [= <- <-] Hin Hk. rewrite !elem_of_cons, elem_of_nil in Hin.
      destruct Hin as [Hin|[Hin|[]]]; done. }
    destruct (lambda_updateFunctionConfiguration w _ _) as [e3|[]].
    + intros [= <- <-] Hin Hk. rewrite !elem_of_cons, elem_of_nil in Hin.
      destruct Hin as [Hin|[Hin|[Hin|[Hin|[]]]]]; try done.
      by injection Hin as _ ->.
    + intros [= <- <-] Hin Hk. rewrite !elem_of_cons, elem_of_nil in Hin.
      destruct Hin as [Hin|[Hin|[Hin|[Hin|[]]]]]; done.
  - unfold deployToLambda. rewrite Happ. intros [= <- <-] Hin.
    by apply elem_of_nil in Hin.
Qed.

(** C2, as stated, fails: there is one [try] block around the three
    requests of [deployToLambda].  On the job of the test suite, outside
    production, in a world that rejects [updateFunctionConfiguration] after
    the code was updated, the backend throws instead of returning the result
    of the code update, and the job is reported as failed. *)
Lemma rejected_configuration_update_is_not_best_effort :
  deployment_config (process_env locked_world)
    (data (test_job "test-job-id" ["BuildArtifact"] [] ∅)) !! "environment"
  = Some "development"
  ∧ (deployToLambda
       (deployment_config (process_env locked_world)
          (data (test_job "test-job-id" ["BuildArtifact"] [] ∅)))
       (object_with {["BuildArtifact" := test_payload]}) locked_world []).1
    = inl (Error "Lambda deployment failed: ResourceConflictException")
  ∧ (handler (test_event ["BuildArtifact"] [] ∅) locked_world []).1
    = inl (Error "Lambda deployment failed: ResourceConflictException")
  ∧ reports (handler (test_event ["BuildArtifact"] [] ∅) locked_world []).2
    = [Failure].
Proof. split_and!; vm_compute; reflexivity. Qed.

(** C2, amended.  When the request that updates the configuration of the
    function is rejected (it is made only when the environment is not
    ["production"]), [deployToLambda], called on the artifacts that the run
    fetched, throws "Lambda deployment failed: " followed by the message
    of the rejection, no deployment result is returned, and the handler
    reports the job as failed with that message: the failure report is its
    only report. *)
Theorem rejected_configuration_update_fails_the_job w h job c e :
  Called c (Some e) ∈ (handler {| CodePipeline_job := Some job |} w h).2 →
  kind_of_call c = UpdateFunctionConfiguration →
  ∃ artifacts d1 d2 rej,
    processArtifacts (inputArtifacts (data job)) w h = (inr artifacts, d1)
    ∧ deployToLambda (deployment_config (process_env w) (data job)) artifacts
        w (h ++ d1)
      = (inl (Error ("Lambda deployment failed: " +:+ message e)), d2)
    ∧ Called c (Some e) ∈ d2
    ∧ deployment_config (process_env w) (data job) !! "environment"
      ≠ Some "production"
    ∧ handler {| CodePipeline_job := Some job |} w h
      = (inl (default (Error ("Lambda deployment failed: " +:+ message e)) rej),
         d1 ++ d2
         ++ [failure_report job (Error ("Lambda deployment failed: " +:+ message e))
               rej])
    ∧ reports (handler {| CodePipeline_job := Some job |} w h).2 = [Failure].
Proof.
  intros Hin Hk.
  destruct (handler_outcome_rejected _ _ _ _ _ (handler_run job w h) Hin)
    as (e0 & rej & before & d & Hrun & Hd & R & Hstage);
    [done | simpl; by rewrite Hk | simpl; by rewrite Hk |].
  destruct Hstage as [[-> E1]|[(artifacts & E1 & E2)|(result & E3)]].
  - exfalso.
    pose proof (in_stage _ _ _ _ _ _ _ (stage_processArtifacts _) E1 Hd) as Hkind.
    simpl in Hkind. rewrite Hk in Hkind. revert Hkind. solve_absent.
  - unfold executeDeployment in E2. repeat case_decide.
    + destruct (deployToLambda_rejected_configuration _ _ _ _ _ _ _ _ E2 Hd Hk)
        as [[= ->] Henv].
      by exists artifacts, before, d, rej.
    + exfalso.
      pose proof (in_stage _ _ _ _ _ _ _ (stage_deployToECS _ _) E2 Hd) as Hkind.
      simpl in Hkind. rewrite Hk in Hkind. revert Hkind. solve_absent.
    + exfalso.
      pose proof (in_stage _ _ _ _ _ _ _ (stage_deployToS3 _ _) E2 Hd) as Hkind.
      simpl in Hkind. rewrite Hk in Hkind. revert Hkind. solve_absent.
    + injection E2 as _ <-. by apply elem_of_nil in Hd.
  - exfalso.
    pose proof (in_stage _ _ _ _ _ _ _ (stage_write_summaries _ _) E3 Hd) as Hkind.
    simpl in Hkind. rewrite Hk in Hkind. revert Hkind. solve_absent.
Qed.

Lemma rejected_configuration_update_fails_the_job_witness :
  reports (handler (test_event ["BuildArtifact"] [] ∅) locked_world []).2
  = [Failure].
Proof.
  destruct (rejected_configuration_update_fails_the_job locked_world []
              (test_job "test-job-id" ["BuildArtifact"] [] ∅)
              (Lambda_updateFunctionConfiguration (Some "lambdadeploy-app")
                 (Some "development") {| getTime := 1700000000000 |})
              (Error "ResourceConflictException"))
    as (artifacts & d1 & d2 & rej & _ & _ & _ & _ & _ & Hreports).
  - vm_compute. do 4 apply list_elem_of_further. apply list_elem_of_here.
  - reflexivity.
  - exact Hreports.
Defined.

(** ** C4: the keys of the static-artifact backend *)

Lemma string_length_app (s1 s2 : string) :
  String.length (s1 +:+ s2) = (String.length s1 + String.length s2)%nat.
Proof. induction s1 as [|a s1 IH]; simpl; [done | by rewrite IH]. Qed.

Lemma string_app_inj_r (s1 s2 s : string) : s1 +:+ s = s2 +:+ s → s1 = s2.
Proof.
  revert s2. induction s1 as [|a s1 IH]; intros [|b s2] Heq; simpl in *.
  - done.
  - apply (f_equal String.length) in Heq.
    rewrite !string_length_app in Heq. simpl in Heq.
    rewrite ?string_length_app in Heq. lia.
  - apply (f_equal String.length) in Heq.
    rewrite !string_length_app in Heq. simpl in Heq.
    rewrite ?string_length_app in Heq. lia.
  - injection Heq as -> Heq. f_equal. by apply IH.
Qed.

(** The key determines the clock reading it was built from. *)
Lemma deployment_key_inj ms1 ms2 :
  deployment_key ms1 = deployment_key ms2 ↔ ms1 = ms2.
Proof.
  split; [|by intros ->]. unfold deployment_key. intros Heq.
  apply (inj (String.app "deployments/")) in Heq.
  apply string_app_inj_r in Heq. by apply (inj pretty) in Heq.
Qed.

Lemma deployToS3_upload_keys config artifacts w h :
  upload_keys (deployToS3 config artifacts w h).2 =
  match or_else (artifacts !! "BuildArtifact") (artifacts !! "SourceOutput") with
  | Some _ => [deployment_key (now w h)]
  | None => []
  end.
Proof.
  destruct (or_else (artifacts !! "BuildArtifact") (artifacts !! "SourceOutput"))
    as [appArtifact|] eqn:Happ.
  - rewrite (deployToS3_run _ _ _ _ _ Happ); simpl.
    by destruct (s3_upload w _ _).
  - unfold or_else in Happ.
    destruct (artifacts !! "BuildArtifact") eqn:H1; [done |].
    by rewrite deployToS3_missing.
Qed.

(** C4, as stated, fails: the key is built from [Date.now()] alone, so two
    jobs whose uploads read the same millisecond get the same key.  With a
    clock that stands still, two distinct jobs handled one after the other
    upload to one key; both jobs succeed, the second overwrites the
    first. *)
Lemma uploads_in_the_same_millisecond_share_a_key :
  upload_keys (two_s3_jobs test_world []).2
  = ["deployments/1700000000000/app.zip"; "deployments/1700000000000/app.zip"]
  ∧ reports (two_s3_jobs test_world []).2 = [Success; Success]
  ∧ ¬ NoDup (upload_keys (two_s3_jobs test_world []).2).
Proof.
  split_and!; [vm_compute; reflexivity | vm_compute; reflexivity |].
  assert (upload_keys (two_s3_jobs test_world []).2
          = ["deployments/1700000000000/app.zip";
             "deployments/1700000000000/app.zip"]) as ->
    by (vm_compute; reflexivity).
  intros Hnd. apply NoDup_cons in Hnd as [Hnotin _].
  apply Hnotin. by left.
Qed.

(** C4, amended.  The key of an upload of the static-artifact backend is
    "deployments/", the reading of the clock in decimal, "/app.zip"; so two
    dispatches in one process produce distinct keys exactly when their
    readings of the clock differ. *)
Theorem upload_keys_differ_iff_clock_readings_differ
    w config1 artifacts1 h1 config2 artifacts2 h2 key1 key2 :
  upload_keys (deployToS3 config1 artifacts1 w h1).2 = [key1] →
  upload_keys (deployToS3 config2 artifacts2 w h2).2 = [key2] →
  key1 = deployment_key (now w h1)
  ∧ key2 = deployment_key (now w h2)
  ∧ (key1 ≠ key2 ↔ now w h1 ≠ now w h2).
Proof.
  rewrite !deployToS3_upload_keys.
  destruct (or_else (artifacts1 !! _) _); [|done].
  destruct (or_else (artifacts2 !! _) _); [|done].
  intros [= <-] [= <-]. split_and!; [done | done |].
  by rewrite deployment_key_inj.
Qed.

(** With a clock that advances, the keys of two dispatches differ. *)
Lemma upload_keys_differ_iff_clock_readings_differ_witness :
  "deployments/1700000000000/app.zip" ≠ "deployments/1700000000002/app.zip".
Proof.
  destruct (upload_keys_differ_iff_clock_readings_differ ticking_world
              {["bucketName" := "releases"]}
              (object_with {["BuildArtifact" := test_payload]}) []
              {["bucketName" := "releases"]}
              (object_with {["SourceOutput" := test_payload]})
              [Clock 1700000000000;
               Called (S3_upload (Some "releases")
                         "deployments/1700000000000/app.zip" [] "application/zip")
                 None]
              "deployments/1700000000000/app.zip"
              "deployments/1700000000002/app.zip")
    as (_ & _ & Hdiffer).
  - vm_compute. reflexivity.
  - vm_compute. reflexivity.
  - apply Hdiffer. vm_compute. discriminate.
Defined.

(** ** C10: the output variables of the success report *)

(** Only the function-update backend returns a version. *)
Lemma executeDeployment_version config artifacts w h result d :
  executeDeployment config artifacts w h = (inr result, d) →
  config !! "deploymentType" = Some "ecs" ∨ config !! "deploymentType" = Some "s3" →
  result_version result = None.
Proof.
  unfold executeDeployment. intros E [Hty|Hty]; rewrite Hty in E.
  - rewrite decide_False, decide_True in E by done.
    rewrite deployToECS_run in E; simpl in E.
    destruct (ecs_updateService w h _) as [e|updateResult]; [done |].
    destruct (service updateResult); [|done]. by injection E as <- _.
  - rewrite decide_False, decide_False, decide_True in E by done.
    destruct (or_else (artifacts !! "BuildArtifact") (artifacts !! "SourceOutput"))
      as [appArtifact|] eqn:Happ.
    + rewrite (deployToS3_run _ _ _ _ _ Happ) in E; simpl in E.
      destruct (s3_upload w _ _); [done |]. by injection E as <- _.
    + unfold or_else in Happ.
      destruct (artifacts !! "BuildArtifact") eqn:H1; [done |].
      by rewrite deployToS3_missing in E.
Qed.

(** Every success report of a run of the handler is the one built from the
    result of the dispatch of that run. *)
Lemma handler_success_report w h job jobId outputVariables rej :
  Called (CodePipeline_putJobSuccessResult jobId outputVariables) rej
    ∈ (handler {| CodePipeline_job := Some job |} w h).2 →
  ∃ artifacts d1 result d2 ms,
    processArtifacts (inputArtifacts (data job)) w h = (inr artifacts, d1)
    ∧ executeDeployment (deployment_config (process_env w) (data job)) artifacts
        w (h ++ d1) = (inr result, d2)
    ∧ Called (CodePipeline_putJobSuccessResult jobId outputVariables) rej
      = success_report job result ms rej.
Proof.
  intros Hin.
  assert (Hstage : ∀ {A} ks (m : M A) w h r d,
            stage ks m → m w h = (r, d) → PutJobSuccessResult ∉ ks →
            Called (CodePipeline_putJobSuccessResult jobId outputVariables) rej ∈ d →
            False).
  { intros A ks m w' h' r d Hm E Hks Hd. apply Hks.
    apply (in_stage _ _ _ _ _ _ _ Hm E Hd). }
  destruct (handler_run job w h)
    as [e d1 rej' E1|artifacts d1 e d2 rej' E1 E2
       |artifacts d1 result d2 e d3 rej' E1 E2 E3
       |artifacts d1 result d2 d3 ms e rej' E1 E2 E3
       |artifacts d1 result d2 d3 ms E1 E2 E3]; simpl in Hin;
    rewrite !elem_of_app, ?elem_of_cons, elem_of_nil in Hin;
    destruct_or!; try done;
    try (exfalso; eapply (Hstage _ _ _ _ _ _ _ (stage_processArtifacts _) E1);
         [solve_absent | done]);
    try (exfalso; eapply (Hstage _ _ _ _ _ _ _ (stage_executeDeployment _ _) E2);
         [solve_absent | done]);
    try (exfalso; eapply (Hstage _ _ _ _ _ _ _ (stage_write_summaries _ _) E3);
         [solve_absent | done]).
  - exists artifacts, d1, result, d2, ms. split_and!; [done | done |].
    unfold success_report in *. by injection Hin as -> -> ->.
  - exists artifacts, d1, result, d2, ms. split_and!; [done | done |].
    unfold success_report in *. by injection Hin as -> -> ->.
Qed.

(** C10, as stated, fails on one point: [deploymentResult.version ||
    'unknown'] also yields 'unknown' for a version that is present and is
    the empty string.  When the function update answers with such a version,
    the result carries it, and the success report says 'unknown'. *)
Lemma empty_version_is_reported_as_unknown :
  (handler (test_event ["BuildArtifact"] [] ∅) unversioned_world []).1
  = inr {| statusCode := 200;
           body :=
             {| body_message := "Deployment orchestrated successfully";
                body_jobId := "test-job-id";
                body_result :=
                  LambdaResult
                    (Some "arn:aws:lambda:us-east-1:123456789012:function:test")
                    (Some "") (Some "2023-01-01T00:00:00.000Z") |} |}
  ∧ Called
      (CodePipeline_putJobSuccessResult "test-job-id"
         {| deploymentStatus := "SUCCESS";
            deploymentTime := {| getTime := 1700000000000 |};
            deployedVersion := "unknown" |}) None
    ∈ (handler (test_event ["BuildArtifact"] [] ∅) unversioned_world []).2.
Proof.
  split; [vm_compute; reflexivity |].
  vm_compute. do 6 apply list_elem_of_further. apply list_elem_of_here.
Qed.

(** C10, amended.  Every success report that the handler makes for a job
    comes after the fetches of the artifacts and the dispatch of the object
    they gave, and is built from the result this dispatch returned:
    [deploymentStatus] is "SUCCESS" and [deployedVersion] is
    [version || 'unknown'] for that result, the version when it is present
    and not the empty string, and "unknown" otherwise.  The results of
    the container-service and static-artifact backends have no version, so
    their jobs report "unknown". *)
Theorem success_report_output_variables w h job jobId outputVariables rej :
  Called (CodePipeline_putJobSuccessResult jobId outputVariables) rej
    ∈ (handler {| CodePipeline_job := Some job |} w h).2 →
  ∃ artifacts d1 result d2,
    processArtifacts (inputArtifacts (data job)) w h = (inr artifacts, d1)
    ∧ executeDeployment (deployment_config (process_env w) (data job)) artifacts
        w (h ++ d1) = (inr result, d2)
    ∧ jobId = id job
    ∧ deploymentStatus outputVariables = "SUCCESS"
    ∧ deployedVersion outputVariables
      = or_default (result_version result) "unknown"
    ∧ (∀ version, result_version result = Some version → version ≠ "" →
         deployedVersion outputVariables = version)
    ∧ (result_version result = None ∨ result_version result = Some "" →
         deployedVersion outputVariables = "unknown")
    ∧ (deployment_config (process_env w) (data job) !! "deploymentType" = Some "ecs"
       ∨ deployment_config (process_env w) (data job) !! "deploymentType" = Some "s3" →
         result_version result = None
         ∧ deployedVersion outputVariables = "unknown").
Proof.
  intros Hin.
  destruct (handler_success_report _ _ _ _ _ _ Hin)
    as (artifacts & d1 & result & d2 & ms & E1 & E2 & Heq).
  injection Heq as -> ->.
  exists artifacts, d1, result, d2. simpl.
  split_and!; [done | done | done | done | done | | |].
  - intros version -> Hne. simpl. by rewrite decide_False.
  - by intros [-> | ->].
  - intros Hty. by rewrite (executeDeployment_version _ _ _ _ _ _ E2 Hty).
Qed.

(** The job of the test suite: the dispatch of its run returns version "1",
    and that is the version reported. *)
Lemma success_report_output_variables_witness :
  ∃ artifacts d1 result d2,
    processArtifacts
      (inputArtifacts (data (test_job "test-job-id" ["BuildArtifact"] [] ∅)))
      test_world [] = (inr artifacts, d1)
    ∧ executeDeployment
        (deployment_config (process_env test_world)
           (data (test_job "test-job-id" ["BuildArtifact"] [] ∅)))
        artifacts test_world ([] ++ d1) = (inr result, d2)
    ∧ "1" = or_default (result_version result) "unknown".
Proof.
  destruct (success_report_output_variables test_world []
              (test_job "test-job-id" ["BuildArtifact"] [] ∅) "test-job-id"
              {| deploymentStatus := "SUCCESS";
                 deploymentTime := {| getTime := 1700000000000 |};
                 deployedVersion := "1" |} None)
    as (artifacts & d1 & result & d2 & Hfetch & Hrun & _ & _ & Hversion & _).
  - vm_compute. do 6 apply list_elem_of_further. apply list_elem_of_here.
  - exists artifacts, d1, result, d2.
    split_and!; [exact Hfetch | exact Hrun | exact Hversion].
Defined.

(** ** C5: the layers of the configuration *)

Lemma from_variable_lookup key value k :
  from_variable key value !! k =
  if decide (key = k) then
    match value with
    | Some v => if decide (v = "") then None else Some v
    | None => None
    end
  else None.
Proof.
  unfold from_variable. destruct value as [v|]; [case_decide|];
    rewrite ?lookup_empty, ?lookup_singleton; by repeat case_decide.
Qed.

(** The object literal of [getDeploymentConfig] is the environment layer
    over the defaults. *)
Lemma environment_over_defaults (env : gmap string string) :
  <["deploymentType" := or_default (env !! "DEPLOYMENT_TYPE") "lambda"]>
  (<["targetFunction" := or_default (env !! "TARGET_FUNCTION_NAME") "lambdadeploy-app"]>
  (<["environment" := or_default (env !! "ENVIRONMENT") "development"]>
  (<["region" := or_default (env !! "AWS_REGION") "us-east-1"]> ∅)))
  = environment_layer env ∪ default_layer.
Proof.
  apply map_eq. intros k.
  unfold environment_layer, default_layer, or_default.
  rewrite !lookup_union, !from_variable_lookup, !lookup_insert,
    lookup_singleton, lookup_empty.
  destruct (decide ("deploymentType" = k)) as [<-|?].
  { simpl. destruct (env !! "DEPLOYMENT_TYPE") as [v|]; [case_decide|]; done. }
  destruct (decide ("targetFunction" = k)) as [<-|?].
  { simpl. destruct (env !! "TARGET_FUNCTION_NAME") as [v|]; [case_decide|]; done. }
  destruct (decide ("environment" = k)) as [<-|?].
  { simpl. destruct (env !! "ENVIRONMENT") as [v|]; [case_decide|]; done. }
  destruct (decide ("region" = k)) as [<-|?].
  { simpl. destruct (env !! "AWS_REGION") as [v|]; [case_decide|]; done. }
  done.
Qed.

(** The configuration the code builds is the overlay of the three
    layers, the job layer without its key [__proto__]. *)
Lemma deployment_config_overlay env jobData :
  deployment_config env jobData
  = overlay default_layer (environment_layer env)
      (delete "__proto__" (action_layer jobData)).
Proof.
  unfold deployment_config, Object_assign, overlay, action_layer.
  rewrite environment_over_defaults.
  destruct (actionConfiguration jobData ≫= configuration); simpl; [done |].
  by rewrite delete_empty, (left_id_L ∅ (∪)).
Qed.

Lemma proto_is_unrecognized : "__proto__" ∉ recognized_keys.
Proof.
  unfold recognized_keys. rewrite !not_elem_of_cons.
  split_and!; [discriminate.. | apply not_elem_of_nil].
Qed.

Lemma unrecognized_key_defaults k :
  k ∉ recognized_keys →
  ∀ env, environment_layer env !! k = None ∧ default_layer !! k = None.
Proof.
  unfold recognized_keys. rewrite !not_elem_of_cons. intros (? & ? & ? & ? & _) env.
  unfold environment_layer, default_layer.
  rewrite !lookup_union, !from_variable_lookup, !lookup_insert, lookup_singleton.
  by repeat (case_decide; [congruence |]).
Qed.

(** Lookups of a known key, once its variable has been examined. *)
Ltac solve_layer :=
  repeat first [ rewrite decide_True by reflexivity
               | rewrite decide_False by discriminate ];
  rewrite ?(right_id_L None (∪)), ?(left_id_L None (∪));
  intuition congruence.

(** C5, as stated, fails on one point: an environment variable that is set
    to the empty string is a value of the environment layer, but
    [process.env.X || default] passes it over.  With [DEPLOYMENT_TYPE] set
    to the empty string and no action configuration for the key, the
    resolved type is the default, not the value of the environment. *)
Lemma blank_environment_variable_yields_the_default :
  process_env blank_type_world !! "DEPLOYMENT_TYPE" = Some ""
  ∧ action_layer (data (test_job "test-job-id" ["BuildArtifact"] [] ∅))
      !! "deploymentType" = None
  ∧ getDeploymentConfig (data (test_job "test-job-id" ["BuildArtifact"] [] ∅))
      blank_type_world []
    = (inr (deployment_config (process_env blank_type_world)
              (data (test_job "test-job-id" ["BuildArtifact"] [] ∅))), [])
  ∧ deployment_config (process_env blank_type_world)
      (data (test_job "test-job-id" ["BuildArtifact"] [] ∅))
      !! "deploymentType" = Some "lambda".
Proof. split_and!; [vm_compute; reflexivity.. | reflexivity | vm_compute; reflexivity]. Qed.

(** C5, amended.  Config resolution makes no request and returns the
    overlay defaults < environment < action configuration, the action
    configuration taken without its key [__proto__]: for every other key the
    value of the highest layer that defines it, where the environment layer
    defines [deploymentType], [targetFunction], [environment] and [region]
    from [DEPLOYMENT_TYPE], [TARGET_FUNCTION_NAME], [ENVIRONMENT] and
    [AWS_REGION] when the variable is set and is not the empty string.
    Every key of the action configuration other than [__proto__] is in the
    result with its value, and such a key that the resolver does not know
    is in the result exactly as it is in the action configuration.  The key
    [__proto__] is never in the result. *)
Theorem getDeploymentConfig_is_the_overlay w h jobData :
  let config := deployment_config (process_env w) jobData in
  getDeploymentConfig jobData w h = (inr config, [])
  ∧ config
    = overlay default_layer (environment_layer (process_env w))
        (delete "__proto__" (action_layer jobData))
  ∧ (∀ k,
       k ≠ "__proto__" →
       config !! k
       = match action_layer jobData !! k with
         | Some v => Some v
         | None =>
             match environment_layer (process_env w) !! k with
             | Some v => Some v
             | None => default_layer !! k
             end
         end)
  ∧ config !! "__proto__" = None
  ∧ (∀ k v,
       k ≠ "__proto__" →
       action_layer jobData !! k = Some v →
       config !! k = Some v)
  ∧ (∀ k,
       k ∉ recognized_keys → k ≠ "__proto__" →
       config !! k = action_layer jobData !! k)
  ∧ (∀ key variable v,
       (key, variable) ∈ [("deploymentType", "DEPLOYMENT_TYPE");
                          ("targetFunction", "TARGET_FUNCTION_NAME");
                          ("environment", "ENVIRONMENT");
                          ("region", "AWS_REGION")] →
       environment_layer (process_env w) !! key = Some v
       ↔ process_env w !! variable = Some v ∧ v ≠ "").
Proof.
  intros config. subst config.
  assert (Hlookup : ∀ k,
    deployment_config (process_env w) jobData !! k
    = match delete "__proto__" (action_layer jobData) !! k with
      | Some v => Some v
      | None =>
          match environment_layer (process_env w) !! k with
          | Some v => Some v
          | None => default_layer !! k
          end
      end).
  { intros k. rewrite deployment_config_overlay. unfold overlay.
    rewrite !lookup_union.
    by destruct (delete "__proto__" (action_layer jobData) !! k),
         (environment_layer (process_env w) !! k), (default_layer !! k). }
  split_and!.
  - apply getDeploymentConfig_run.
  - apply deployment_config_overlay.
  - intros k Hk. by rewrite Hlookup, lookup_delete_ne.
  - rewrite Hlookup, lookup_delete_eq.
    by destruct (unrecognized_key_defaults _ proto_is_unrecognized (process_env w))
      as [-> ->].
  - intros k v Hk Hv. by rewrite Hlookup, lookup_delete_ne, Hv.
  - intros k Hk Hne. rewrite Hlookup, lookup_delete_ne by done.
    destruct (unrecognized_key_defaults k Hk (process_env w)) as [-> ->].
    by destruct (action_layer jobData !! k).
  - intros key variable v Hin. unfold environment_layer.
    rewrite !lookup_union, !from_variable_lookup.
    rewrite !elem_of_cons, elem_of_nil in Hin.
    destruct Hin as [[= -> ->]|[[= -> ->]|[[= -> ->]|[[= -> ->]|[]]]]]; simpl.
    + destruct (process_env w !! "DEPLOYMENT_TYPE") as [v'|];
        [destruct (decide (v' = "")) as [->|Hne]|]; solve_layer.
    + destruct (process_env w !! "TARGET_FUNCTION_NAME") as [v'|];
        [destruct (decide (v' = "")) as [->|Hne]|]; solve_layer.
    + destruct (process_env w !! "ENVIRONMENT") as [v'|];
        [destruct (decide (v' = "")) as [->|Hne]|]; solve_layer.
    + destruct (process_env w !! "AWS_REGION") as [v'|];
        [destruct (decide (v' = "")) as [->|Hne]|]; solve_layer.
Qed.

(** An action configuration with a key [__proto__], as the parsed event
    can carry it: the key is not in the resolved configuration, the other
    keys are. *)
Example proto_key_is_not_copied :
  deployment_config ∅
    (data (test_job "test-job-id" ["BuildArtifact"] []
             {["__proto__" := "x"; "bucketName" := "releases"]}))
  = {["bucketName" := "releases";
      "deploymentType" := "lambda";
      "targetFunction" := "lambdadeploy-app";
      "environment" := "development";
      "region" := "us-east-1"]}.
Proof. vm_compute. reflexivity. Qed.

(** * Further properties of the orchestrator *)

(** ** A rejected request ends its stage *)

Lemma fulfilled_fetches (refs : list Artifact) :
  Forall fulfilled ((λ a, fetch a None) <$> refs).
Proof. apply Forall_fmap, Forall_true. done. Qed.

Lemma fulfilled_summary_writes result outputs times :
  Forall fulfilled (summary_writes result outputs times).
Proof.
  unfold summary_writes. revert times.
  induction outputs as [|a outputs IH]; intros [|ms times]; simpl;
    try constructor; try done.
  constructor; [done |]. apply IH.
Qed.

Lemma processArtifacts_halts inputArtifacts :
  halts_on_rejection (processArtifacts inputArtifacts).
Proof.
  intros w h r d c e E Hin. unfold processArtifacts in E.
  pose proof (processArtifacts_loop_run inputArtifacts empty_object w h) as Hrun.
  rewrite E in Hrun. destruct r as [e0|artifacts].
  - destruct Hrun as (done & a & rest & _ & ->).
    apply elem_of_app in Hin as [Hin|Hin].
    { apply list_elem_of_fmap in Hin as (? & ? & _). done. }
    apply list_elem_of_singleton in Hin. injection Hin as -> ->.
    exists ((λ a, fetch a None) <$> done), e0.
    split_and!; [done | apply fulfilled_fetches | done | done].
  - destruct Hrun as [-> _].
    apply list_elem_of_fmap in Hin as (? & ? & _). done.
Qed.

Lemma write_summaries_halts outputArtifacts result :
  halts_on_rejection (write_summaries outputArtifacts result).
Proof.
  intros w h r d c e E Hin. unfold write_summaries in E.
  destruct (nonempty outputArtifacts).
  - pose proof (updateOutputArtifacts_run (default [] outputArtifacts) result w h)
      as Hrun.
    rewrite E in Hrun. destruct r as [e0|[]].
    + destruct Hrun as (done & a & rest & times & ms & _ & _ & ->).
      apply elem_of_app in Hin as [Hin|Hin].
      { pose proof (fulfilled_summary_writes result done times) as Hall.
        eapply Forall_forall in Hall; [|done]. done. }
      unfold summary_write in Hin.
      rewrite !elem_of_cons, elem_of_nil in Hin.
      destruct Hin as [Hin|[Hin|[]]]; [done |]. injection Hin as -> ->.
      exists (summary_writes result done times ++ [Clock ms]), e0.
      split_and!; [by rewrite <- app_assoc | | done | done].
      apply Forall_app. split; [apply fulfilled_summary_writes |].
      by repeat constructor.
    + destruct Hrun as (times & _ & ->).
      pose proof (fulfilled_summary_writes result (default [] outputArtifacts) times)
        as Hall.
      eapply Forall_forall in Hall; [|done]. done.
  - injection E as _ <-. by apply elem_of_nil in Hin.
Qed.

(** A rejected request in an explicit trace whose other requests are
    fulfilled. *)
Ltac solve_halts Hin :=
  rewrite ?elem_of_cons, elem_of_nil in Hin; destruct_or!; try done;
  match goal with
  | H : Called _ (Some _) = Called _ (Some _) |- _ => injection H as -> ->
  end;
  match goal with
  | |- ∃ before error, ?l = _ ∧ _ =>
      exists (removelast l); eexists;
      split_and!; [reflexivity | by repeat constructor | reflexivity | reflexivity]
  end.

Lemma deployToLambda_halts config artifacts :
  halts_on_rejection (deployToLambda config artifacts).
Proof.
  intros w h r d c e E Hin.
  destruct (or_else (artifacts !! "BuildArtifact") (artifacts !! "SourceOutput"))
    as [appArtifact|] eqn:Happ.
  - rewrite (deployToLambda_run _ _ _ _ _ Happ) in E; simpl in E.
    destruct (lambda_updateFunctionCode w h _) as [e1|updateResult].
    { injection E as <- <-. solve_halts Hin. }
    destruct (lambda_waitFor w _ _) as [e2|[]].
    { injection E as <- <-. solve_halts Hin. }
    case_decide; cycle 1.
    { injection E as <- <-. solve_halts Hin. }
    destruct (lambda_updateFunctionConfiguration w _ _) as [e3|[]];
      injection E as <- <-; solve_halts Hin.
  - unfold deployToLambda in E. rewrite Happ in E. injection E as _ <-.
    by apply elem_of_nil in Hin.
Qed.

Lemma deployToECS_halts config artifacts :
  halts_on_rejection (deployToECS config artifacts).
Proof.
  intros w h r d c e E Hin. rewrite deployToECS_run in E; simpl in E.
  destruct (ecs_updateService w h _) as [e1|updateResult].
  { injection E as <- <-. solve_halts Hin. }
  destruct (service updateResult); injection E as <- <-; solve_halts Hin.
Qed.

Lemma deployToS3_halts config artifacts :
  halts_on_rejection (deployToS3 config artifacts).
Proof.
  intros w h r d c e E Hin.
  destruct (or_else (artifacts !! "BuildArtifact") (artifacts !! "SourceOutput"))
    as [appArtifact|] eqn:Happ.
  - rewrite (deployToS3_run _ _ _ _ _ Happ) in E; simpl in E.
    destruct (s3_upload w _ _) as [e1|uploadResult];
      injection E as <- <-; solve_halts Hin.
  - unfold or_else in Happ.
    destruct (artifacts !! "BuildArtifact") eqn:H1; [done |].
    rewrite deployToS3_missing in E by done. injection E as _ <-.
    by apply elem_of_nil in Hin.
Qed.

Lemma executeDeployment_halts config artifacts :
  halts_on_rejection (executeDeployment config artifacts).
Proof.
  unfold executeDeployment. repeat case_decide.
  - apply deployToLambda_halts.
  - apply deployToECS_halts.
  - apply deployToS3_halts.
  - intros w h r d c e [= _ <-] Hin. by apply elem_of_nil in Hin.
Qed.

(** A rejected request in a run of the handler, other than the failure
    report: it is followed by the failure report and by nothing else, every
    request before it was fulfilled, and the reported error carries the
    wrapped message of the rejection. *)
Lemma handler_rejected w h job c e :
  Called c (Some e) ∈ (handler {| CodePipeline_job := Some job |} w h).2 →
  kind_of_call c ≠ PutJobFailureResult →
  ∃ before error rej,
    handler {| CodePipeline_job := Some job |} w h
    = (inl (default error rej),
       before ++ [Called c (Some e); failure_report job error rej])
    ∧ Forall fulfilled before
    ∧ message error = wrapped_message (kind_of_call c) e.
Proof.
  intros Hin Hkind.
  assert (Hret : ∀ {A} ks (m : M A) w h (a : A) d,
            stage ks m → m w h = (inr a, d) → Forall fulfilled d).
  { intros A ks m w' h' a d Hm E. destruct (Hm w' h') as [_ Hf].
    rewrite E in Hf. by apply Hf. }
  assert (Hnot : ∀ d, Forall fulfilled d → Called c (Some e) ∈ d → False).
  { intros d Hall Hd. rewrite Forall_forall in Hall. by apply Hall in Hd. }
  destruct (handler_run job w h)
    as [e0 d1 rej E1|artifacts d1 e0 d2 rej E1 E2
       |artifacts d1 result d2 e0 d3 rej E1 E2 E3
       |artifacts d1 result d2 d3 ms e0 rej E1 E2 E3
       |artifacts d1 result d2 d3 ms E1 E2 E3]; simpl in Hin;
    try pose proof (Hret _ _ _ _ _ _ _ (stage_processArtifacts _) E1) as F1;
    try pose proof (Hret _ _ _ _ _ _ _ (stage_executeDeployment _ _) E2) as F2;
    try pose proof (Hret _ _ _ _ _ _ _ (stage_write_summaries _ _) E3) as F3;
    rewrite !elem_of_app, ?elem_of_cons, elem_of_nil in Hin;
    destruct_or!; try done; try (exfalso; eauto; fail);
    try (unfold failure_report in *; exfalso; apply Hkind;
         match goal with H : Called c _ = Called _ _ |- _ =>
           by injection H as -> _ end).
  - destruct (processArtifacts_halts _ _ _ _ _ _ _ E1 Hin)
      as (before & error & -> & Hall & [= <-] & Hmsg).
    exists before, e0, rej. by rewrite <- app_assoc.
  - destruct (executeDeployment_halts _ _ _ _ _ _ _ _ E2 Hin)
      as (before & error & -> & Hall & [= <-] & Hmsg).
    exists (d1 ++ before), e0, rej.
    split_and!; [by rewrite <- !app_assoc | by apply Forall_app | done].
  - destruct (write_summaries_halts _ _ _ _ _ _ _ _ E3 Hin)
      as (before & error & -> & Hall & [= <-] & Hmsg).
    exists (d1 ++ d2 ++ before), e0, rej.
    split_and!; [by rewrite <- !app_assoc | by rewrite !Forall_app | done].
  - unfold success_report in *. injection Hin as -> ->.
    exists (d1 ++ d2 ++ d3 ++ [Clock ms]), e0, rej.
    split_and!; [by rewrite <- !app_assoc | | done].
    rewrite !Forall_app. split_and!; try done. by repeat constructor.
Qed.

(** X3. When a request of the handler other than the failure report is
    rejected, every request before it was fulfilled, and the handler makes
    exactly one more request, the failure report, and then throws: no stage
    goes on after a rejection, and nothing is retried. *)
Theorem rejected_request_ends_the_job w h job c e :
  Called c (Some e) ∈ (handler {| CodePipeline_job := Some job |} w h).2 →
  kind_of_call c ≠ PutJobFailureResult →
  ∃ before error rej,
    handler {| CodePipeline_job := Some job |} w h
    = (inl (default error rej),
       before ++ [Called c (Some e); failure_report job error rej])
    ∧ Forall fulfilled before.
Proof.
  intros Hin Hkind.
  destruct (handler_rejected _ _ _ _ _ Hin Hkind)
    as (before & error & rej & Hrun & Hall & _).
  by exists before, error, rej.
Qed.

Lemma rejected_request_ends_the_job_witness :
  ∃ before error rej,
    handler (test_event ["BuildArtifact"] [] ∅) broken_update_world []
    = (inl (default error rej),
       before
       ++ [Called (Lambda_updateFunctionCode (Some "lambdadeploy-app") [])
             (Some (Error "Deployment failed"));
           failure_report (test_job "test-job-id" ["BuildArtifact"] [] ∅) error rej])
    ∧ Forall fulfilled before.
Proof.
  apply (rejected_request_ends_the_job broken_update_world []
           (test_job "test-job-id" ["BuildArtifact"] [] ∅)
           (Lambda_updateFunctionCode (Some "lambdadeploy-app") [])
           (Error "Deployment failed")).
  - vm_compute. apply list_elem_of_further, list_elem_of_here.
  - discriminate.
Defined.

(** X4. The failure report that follows a rejected request carries the
    message of the rejection: as it is for a fetch of an artifact, a write of
    a summary and the success report, and behind "Lambda deployment
    failed: ", "ECS deployment failed: " or "S3 deployment failed: " for a
    request of a backend. *)
Theorem failure_report_carries_the_rejection w h job c e :
  Called c (Some e) ∈ (handler {| CodePipeline_job := Some job |} w h).2 →
  kind_of_call c ≠ PutJobFailureResult →
  ∃ rej,
    last (handler {| CodePipeline_job := Some job |} w h).2
    = Some (Called
              (CodePipeline_putJobFailureResult (id job)
                 {| failure_message := wrapped_message (kind_of_call c) e;
                    failure_type := "JobFailed" |})
              rej).
Proof.
  intros Hin Hkind.
  destruct (handler_rejected _ _ _ _ _ Hin Hkind)
    as (before & error & rej & Hrun & _ & Hmsg).
  exists rej. rewrite Hrun; simpl.
  rewrite last_app. simpl.
  unfold failure_report. by rewrite Hmsg.
Qed.

Lemma failure_report_carries_the_rejection_witness :
  ∃ rej,
    last (handler (test_event ["BuildArtifact"] [] ∅) broken_update_world []).2
    = Some (Called
              (CodePipeline_putJobFailureResult "test-job-id"
                 {| failure_message := "Lambda deployment failed: Deployment failed";
                    failure_type := "JobFailed" |})
              rej).
Proof.
  apply (failure_report_carries_the_rejection broken_update_world []
           (test_job "test-job-id" ["BuildArtifact"] [] ∅)
           (Lambda_updateFunctionCode (Some "lambdadeploy-app") [])
           (Error "Deployment failed")).
  - vm_compute. apply list_elem_of_further, list_elem_of_here.
  - discriminate.
Defined.

(** ** The two ends of a run *)

Lemma stage_handler_try event :
  stage [GetObject; ClockRead; Upload; PutObject; UpdateFunctionCode; WaitFor;
         UpdateFunctionConfiguration; UpdateService; PutJobSuccessResult]
    (handler_try event).
Proof.
  unfold handler_try. destruct (CodePipeline_job event) as [job|];
    [|apply stage_throw].
  apply stage_bind;
    [eapply stage_weaken; [|apply stage_getDeploymentConfig]; solve_kinds |].
  intros config. apply stage_bind;
    [eapply stage_weaken; [|apply stage_processArtifacts]; solve_kinds |].
  intros artifacts. apply stage_bind;
    [eapply stage_weaken; [|apply stage_executeDeployment]; solve_kinds |].
  intros result. apply stage_bind;
    [eapply stage_weaken; [|apply stage_write_summaries]; solve_kinds |].
  intros _. apply stage_bind; [apply stage_new_Date; solve_kind |].
  intros date. apply stage_bind; [apply stage_request; solve_kind |].
  intros _. apply stage_ret.
Qed.

(** X1. A failure report is the last thing the handler does.  It names the
    job, has the type "JobFailed" and carries the message of the error that
    the [try] block threw; the handler then throws that error, or the
    rejection of the report when the report itself is rejected. *)
Theorem failure_report_is_final w h job jobId failureDetails rej :
  Called (CodePipeline_putJobFailureResult jobId failureDetails) rej
    ∈ (handler {| CodePipeline_job := Some job |} w h).2 →
  ∃ error before,
    handler_try {| CodePipeline_job := Some job |} w h = (inl error, before)
    ∧ handler {| CodePipeline_job := Some job |} w h
      = (inl (default error rej),
         before ++ [Called (CodePipeline_putJobFailureResult jobId failureDetails) rej])
    ∧ jobId = id job
    ∧ failureDetails
      = {| failure_message := message error; failure_type := "JobFailed" |}.
Proof.
  unfold handler, try_catch.
  destruct (handler_try _ w h) as [[error|response] before] eqn:Etry.
  - destruct (handler_catch_run job error w (h ++ before)) as [rej' ->].
    simpl. intros Hin. apply elem_of_app in Hin as [Hin|Hin].
    { pose proof (in_stage _ _ _ _ _ _ _ (stage_handler_try _) Etry Hin) as Hkinds.
      exfalso. revert Hkinds. solve_absent. }
    apply list_elem_of_singleton in Hin. unfold failure_report in *.
    injection Hin as -> -> ->. by exists error, before.
  - simpl. intros Hin.
    pose proof (in_stage _ _ _ _ _ _ _ (stage_handler_try _) Etry Hin) as Hkinds.
    exfalso. revert Hkinds. solve_absent.
Qed.

Lemma failure_report_is_final_witness :
  ∃ error before,
    handler_try (test_event ["BuildArtifact"] [] ∅) broken_update_world []
    = (inl error, before)
    ∧ message error = "Lambda deployment failed: Deployment failed".
Proof.
  destruct (failure_report_is_final broken_update_world []
              (test_job "test-job-id" ["BuildArtifact"] [] ∅) "test-job-id"
              {| failure_message := "Lambda deployment failed: Deployment failed";
                 failure_type := "JobFailed" |} None)
    as (error & before & Htry & _ & _ & Hdetails).
  - vm_compute. do 2 apply list_elem_of_further. apply list_elem_of_here.
  - exists error, before. split; [exact Htry |].
    injection Hdetails as Hmsg. symmetry. exact Hmsg.
Defined.

(** X2. The handler returns only when every request it made was
    fulfilled.  The run is then the fetches of the artifacts, the dispatch
    of the object they gave, the writes of the summaries and the success
    report, which is the last request and the only report; the response has
    status 200 and carries the job id and the result that this dispatch
    returned. *)
Theorem handler_returns_after_fulfilled_requests w h job response :
  (handler {| CodePipeline_job := Some job |} w h).1 = inr response →
  Forall fulfilled (handler {| CodePipeline_job := Some job |} w h).2
  ∧ ∃ artifacts d1 result d2 d3 ms,
      processArtifacts (inputArtifacts (data job)) w h = (inr artifacts, d1)
      ∧ executeDeployment (deployment_config (process_env w) (data job)) artifacts
          w (h ++ d1) = (inr result, d2)
      ∧ write_summaries (outputArtifacts (data job)) result w (h ++ d1 ++ d2)
        = (inr (), d3)
      ∧ (handler {| CodePipeline_job := Some job |} w h).2
        = d1 ++ d2 ++ d3 ++ [Clock ms; success_report job result ms None]
      ∧ reports (handler {| CodePipeline_job := Some job |} w h).2 = [Success]
      ∧ response
        = {| statusCode := 200;
             body := {| body_message := "Deployment orchestrated successfully";
                        body_jobId := id job;
                        body_result := result |} |}.
Proof.
  intros Hret.
  pose proof (stage_handler_try {| CodePipeline_job := Some job |} w h) as [_ Hf].
  pose proof (handler_try_run job w h) as Htry.
  revert Hret Hf. unfold handler, try_catch.
  destruct (handler_try _ w h) as [[error|response'] trace] eqn:Etry; simpl.
  { destruct (handler_catch_run job error w (h ++ trace)) as [rej ->]. done. }
  intros [= ->] Hf. split; [by apply Hf |].
  destruct (processArtifacts _ w h) as [[e|artifacts] d1] eqn:E1; [done |].
  destruct (executeDeployment _ artifacts w (h ++ d1)) as [[e|result] d2] eqn:E2;
    [done |].
  destruct (write_summaries _ result w (h ++ d1 ++ d2)) as [[e|[]] d3] eqn:E3;
    [done |].
  simpl in Htry.
  destruct (codepipeline_putJobSuccessResult w _ _) as [e|[]]; [done |].
  injection Htry as -> ->.
  exists artifacts, d1, result, d2, d3, (now w (h ++ d1 ++ d2 ++ d3)).
  split_and!; [done | done | done | done | | done].
  rewrite !reports_app.
  apply processArtifacts_quiet in E1 as [-> _].
  apply executeDeployment_quiet in E2 as [-> _].
  by apply write_summaries_quiet in E3 as [-> _].
Qed.

(** The job of the test suite: the response carries the result of the
    function update that the run requested. *)
Lemma handler_returns_after_fulfilled_requests_witness :
  Forall fulfilled (handler (test_event ["BuildArtifact"] [] ∅) test_world []).2
  ∧ ∃ artifacts d1 result d2 d3 ms,
      processArtifacts
        (inputArtifacts (data (test_job "test-job-id" ["BuildArtifact"] [] ∅)))
        test_world [] = (inr artifacts, d1)
      ∧ executeDeployment
          (deployment_config (process_env test_world)
             (data (test_job "test-job-id" ["BuildArtifact"] [] ∅)))
          artifacts test_world ([] ++ d1) = (inr result, d2)
      ∧ write_summaries
          (outputArtifacts (data (test_job "test-job-id" ["BuildArtifact"] [] ∅)))
          result test_world ([] ++ d1 ++ d2) = (inr (), d3)
      ∧ (handler (test_event ["BuildArtifact"] [] ∅) test_world []).2
        = d1 ++ d2 ++ d3
          ++ [Clock ms;
              success_report (test_job "test-job-id" ["BuildArtifact"] [] ∅)
                result ms None]
      ∧ reports (handler (test_event ["BuildArtifact"] [] ∅) test_world []).2
        = [Success]
      ∧ {| statusCode := 200;
           body := {| body_message := "Deployment orchestrated successfully";
                      body_jobId := "test-job-id";
                      body_result :=
                        LambdaResult
                          (Some "arn:aws:lambda:us-east-1:123456789012:function:test")
                          (Some "1") (Some "2023-01-01T00:00:00.000Z") |} |}
        = {| statusCode := 200;
             body := {| body_message := "Deployment orchestrated successfully";
                        body_jobId :=
                          id (test_job "test-job-id" ["BuildArtifact"] [] ∅);
                        body_result := result |} |}.
Proof.
  apply (handler_returns_after_fulfilled_requests test_world []
           (test_job "test-job-id" ["BuildArtifact"] [] ∅)
           {| statusCode := 200;
              body := {| body_message := "Deployment orchestrated successfully";
                         body_jobId := "test-job-id";
                         body_result :=
                           LambdaResult
                             (Some "arn:aws:lambda:us-east-1:123456789012:function:test")
                             (Some "1") (Some "2023-01-01T00:00:00.000Z") |} |}).
  vm_compute. reflexivity.
Defined.

(** ** The dispatch *)

Lemma starts_with_app p rest : starts_with p (p +:+ rest).
Proof. by exists rest. Qed.

(** X5. The dispatch throws [Error]s only, never a [TypeError]: the message
    is "No application artifact found for Lambda deployment", or begins
    with the name of the backend that failed, or with "Unsupported
    deployment type: ". *)
Theorem dispatch_errors_are_wrapped config artifacts w h error d :
  executeDeployment config artifacts w h = (inl error, d) →
  ∃ msg,
    error = Error msg
    ∧ (msg = "No application artifact found for Lambda deployment"
       ∨ starts_with "Lambda deployment failed: " msg
       ∨ starts_with "ECS deployment failed: " msg
       ∨ starts_with "S3 deployment failed: " msg
       ∨ starts_with "Unsupported deployment type: " msg).
Proof.
  unfold executeDeployment. repeat case_decide.
  - destruct (or_else (artifacts !! "BuildArtifact") (artifacts !! "SourceOutput"))
      as [appArtifact|] eqn:Happ.
    + rewrite (deployToLambda_run _ _ _ _ _ Happ); simpl.
      destruct (lambda_updateFunctionCode w h _) as [e1|updateResult].
      { intros [= <- _]. eexists. split; [done |].
        right; left. apply starts_with_app. }
      destruct (lambda_waitFor w _ _) as [e2|[]].
      { intros [= <- _]. eexists. split; [done |].
        right; left. apply starts_with_app. }
      case_decide; [|done].
      destruct (lambda_updateFunctionConfiguration w _ _) as [e3|[]]; [|done].
      intros [= <- _]. eexists. split; [done |].
      right; left. apply starts_with_app.
    + unfold deployToLambda. rewrite Happ. intros [= <- _].
      eexists. split; [done |]. by left.
  - rewrite deployToECS_run; simpl.
    destruct (ecs_updateService w h _) as [e1|updateResult].
    { intros [= <- _]. eexists. split; [done |].
      do 2 right; left. apply starts_with_app. }
    destruct (service updateResult); [done |].
    intros [= <- _]. eexists. split; [done |].
    do 2 right; left.
    by exists "Cannot read properties of undefined (reading 'serviceArn')".
  - destruct (or_else (artifacts !! "BuildArtifact") (artifacts !! "SourceOutput"))
      as [appArtifact|] eqn:Happ.
    + rewrite (deployToS3_run _ _ _ _ _ Happ); simpl.
      destruct (s3_upload w _ _) as [e1|uploadResult]; [|done].
      intros [= <- _]. eexists. split; [done |].
      do 3 right; left. apply starts_with_app.
    + unfold or_else in Happ.
      destruct (artifacts !! "BuildArtifact") eqn:Hbuild; [done |].
      rewrite deployToS3_missing by done. intros [= <- _].
      eexists. split; [done |]. do 3 right; left.
      by exists "No application artifact found for S3 deployment".
  - intros [= <- _]. eexists. split; [done |].
    do 4 right. apply starts_with_app.
Qed.

Lemma dispatch_errors_are_wrapped_witness :
  ∃ msg,
    Error "Unsupported deployment type: carrier-pigeon" = Error msg
    ∧ (msg = "No application artifact found for Lambda deployment"
       ∨ starts_with "Lambda deployment failed: " msg
       ∨ starts_with "ECS deployment failed: " msg
       ∨ starts_with "S3 deployment failed: " msg
       ∨ starts_with "Unsupported deployment type: " msg).
Proof.
  apply (dispatch_errors_are_wrapped {["deploymentType" := "carrier-pigeon"]}
           empty_object test_world []
           (Error "Unsupported deployment type: carrier-pigeon") []).
  vm_compute. reflexivity.
Defined.

Lemma backend_kinds_dispatch config artifacts :
  stage (backend_kinds (config !! "deploymentType"))
    (executeDeployment config artifacts).
Proof.
  unfold executeDeployment, backend_kinds. repeat case_decide.
  - eapply stage_weaken; [|apply stage_deployToLambda]. solve_kinds.
  - apply stage_deployToECS.
  - apply stage_deployToS3.
  - apply stage_throw.
Qed.

(** X7. A job touches only the backend that its deployment type selects.
    Besides the fetches of artifacts, the writes of summaries, the readings
    of the clock and the reports, every request of a run is one of the
    selected backend: the Lambda requests for "lambda", the update of the
    service for "ecs", the upload for "s3", and none for any other type. *)
Theorem handler_uses_only_the_selected_backend w h job :
  Forall
    (λ x, kind_of x ∈ [GetObject; ClockRead; PutObject;
                       PutJobSuccessResult; PutJobFailureResult]
          ∨ kind_of x
            ∈ backend_kinds
                (deployment_config (process_env w) (data job) !! "deploymentType"))
    (handler {| CodePipeline_job := Some job |} w h).2.
Proof.
  assert (Hgen : ∀ {A} ks (m : M A) w h r d,
            stage ks m → m w h = (r, d) →
            ks ⊆ [GetObject; ClockRead; PutObject;
                  PutJobSuccessResult; PutJobFailureResult] →
            Forall
              (λ x, kind_of x ∈ [GetObject; ClockRead; PutObject;
                                 PutJobSuccessResult; PutJobFailureResult]
                    ∨ kind_of x
                      ∈ backend_kinds
                          (deployment_config (process_env w) (data job)
                             !! "deploymentType")) d).
  { intros A ks m w' h' r d Hm E Hsub. destruct (Hm w' h') as [Hk _].
    rewrite E in Hk. eapply Forall_impl; [exact Hk |].
    intros x Hx. left. by apply Hsub. }
  destruct (handler_run job w h)
    as [e0 d1 rej E1|artifacts d1 e0 d2 rej E1 E2
       |artifacts d1 result d2 e0 d3 rej E1 E2 E3
       |artifacts d1 result d2 d3 ms e0 rej E1 E2 E3
       |artifacts d1 result d2 d3 ms E1 E2 E3]; simpl;
    rewrite !Forall_app; split_and!;
    try (eapply (Hgen _ _ _ _ _ _ _ (stage_processArtifacts _) E1); solve_kinds);
    try (eapply (Hgen _ _ _ _ _ _ _ (stage_write_summaries _ _) E3); solve_kinds);
    try (pose proof (backend_kinds_dispatch
                       (deployment_config (process_env w) (data job)) artifacts
                       w (h ++ d1)) as [Hk _];
         rewrite E2 in Hk; eapply Forall_impl; [exact Hk |];
         intros x Hx; by right);
    repeat (constructor; [left; solve_kind |]); constructor.
Qed.

Lemma executeDeployment_production config artifacts w h :
  config !! "environment" = Some "production" →
  Forall (λ x, kind_of x ≠ UpdateFunctionConfiguration)
    (executeDeployment config artifacts w h).2.
Proof.
  intros Henv. unfold executeDeployment. repeat case_decide.
  - destruct (or_else (artifacts !! "BuildArtifact") (artifacts !! "SourceOutput"))
      as [appArtifact|] eqn:Happ.
    + rewrite (deployToLambda_run _ _ _ _ _ Happ); simpl.
      destruct (lambda_updateFunctionCode w h _) as [e1|updateResult];
        [by repeat (constructor; [done |]) |].
      destruct (lambda_waitFor w _ _) as [e2|[]];
        [by repeat (constructor; [done |]) |].
      case_decide; [done |]. by repeat (constructor; [done |]).
    + unfold deployToLambda. rewrite Happ. constructor.
  - destruct (stage_deployToECS config artifacts w h) as [Hk _].
    eapply absent_kind; [exact Hk | solve_absent].
  - destruct (stage_deployToS3 config artifacts w h) as [Hk _].
    eapply absent_kind; [exact Hk | solve_absent].
  - constructor.
Qed.

(** X6. In production the configuration of the function is left alone: a
    job whose resolved environment is "production" never requests
    [updateFunctionConfiguration], whatever its deployment type and whatever
    the services answer. *)
Theorem production_never_updates_the_configuration w h job :
  deployment_config (process_env w) (data job) !! "environment"
  = Some "production" →
  calls UpdateFunctionConfiguration
    (handler {| CodePipeline_job := Some job |} w h).2 = [].
Proof.
  intros Henv. apply absent_calls.
  assert (Hgen : ∀ {A} ks (m : M A) w h r d,
            stage ks m → m w h = (r, d) → UpdateFunctionConfiguration ∉ ks →
            Forall (λ x, kind_of x ≠ UpdateFunctionConfiguration) d).
  { intros A ks m w' h' r d Hm E Hk. destruct (Hm w' h') as [Hks _].
    rewrite E in Hks. by eapply absent_kind. }
  destruct (handler_run job w h)
    as [e0 d1 rej E1|artifacts d1 e0 d2 rej E1 E2
       |artifacts d1 result d2 e0 d3 rej E1 E2 E3
       |artifacts d1 result d2 d3 ms e0 rej E1 E2 E3
       |artifacts d1 result d2 d3 ms E1 E2 E3]; simpl;
    rewrite !Forall_app; split_and!;
    try (eapply (Hgen _ _ _ _ _ _ _ (stage_processArtifacts _) E1); solve_absent);
    try (eapply (Hgen _ _ _ _ _ _ _ (stage_write_summaries _ _) E3); solve_absent);
    try (pose proof (executeDeployment_production _ artifacts w (h ++ d1) Henv)
           as Hk;
         by rewrite E2 in Hk);
    by repeat (constructor; [done |]).
Qed.

Lemma production_never_updates_the_configuration_witness :
  calls UpdateFunctionConfiguration
    (handler (test_event ["BuildArtifact"] [] {["environment" := "production"]})
       test_world []).2 = [].
Proof.
  apply (production_never_updates_the_configuration test_world []
           (test_job "test-job-id" ["BuildArtifact"] []
              {["environment" := "production"]})).
  vm_compute. reflexivity.
Defined.


(** ** The resolved configuration *)

Lemma or_default_nonempty a b : b ≠ "" → or_default a b ≠ "".
Proof. unfold or_default. destruct a; [case_decide|]; done. Qed.

(** X10. The four keys the resolver knows are always in the resolved
    configuration, and a value that does not come from the action
    configuration is never the empty string: so the function name given to
    the Lambda requests is never undefined. *)
Theorem recognized_keys_are_resolved env jobData k :
  k ∈ recognized_keys →
  ∃ v,
    deployment_config env jobData !! k = Some v
    ∧ (action_layer jobData !! k = None → v ≠ "").
Proof.
  unfold recognized_keys, deployment_config, Object_assign, action_layer.
  rewrite !elem_of_cons, elem_of_nil. intros Hk.
  assert (Hproto : "__proto__" ≠ k) by (intros <-; intuition discriminate).
  assert (Hbase : ∃ v,
    (<["deploymentType" := or_default (env !! "DEPLOYMENT_TYPE") "lambda"]>
     (<["targetFunction" :=
          or_default (env !! "TARGET_FUNCTION_NAME") "lambdadeploy-app"]>
     (<["environment" := or_default (env !! "ENVIRONMENT") "development"]>
     (<["region" := or_default (env !! "AWS_REGION") "us-east-1"]> ∅)))
     : gmap string string) !! k = Some v ∧ v ≠ "").
  { destruct Hk as [->|[->|[->|[->|[]]]]];
      repeat first [ rewrite lookup_insert_eq
                   | rewrite lookup_insert_ne by discriminate ];
      eexists; (split; [reflexivity | by apply or_default_nonempty]). }
  destruct Hbase as (v & Hv & Hne).
  destruct (actionConfiguration jobData ≫= configuration) as [actionConfig|];
    simpl.
  - rewrite lookup_union, Hv, lookup_delete_ne by done.
    destruct (actionConfig !! k) as [v'|]; simpl.
    + by exists v'.
    + by exists v.
  - by exists v.
Qed.

Lemma recognized_keys_are_resolved_witness :
  ∃ v,
    deployment_config ∅ (data (test_job "test-job-id" ["BuildArtifact"] [] ∅))
      !! "targetFunction" = Some v
    ∧ (action_layer (data (test_job "test-job-id" ["BuildArtifact"] [] ∅))
         !! "targetFunction" = None → v ≠ "").
Proof.
  apply (recognized_keys_are_resolved ∅
           (data (test_job "test-job-id" ["BuildArtifact"] [] ∅)) "targetFunction").
  apply list_elem_of_further, list_elem_of_here.
Defined.

(** ** The artifacts *)

Lemma processArtifacts_loop_other inputArtifacts artifacts w h artifacts' d k :
  processArtifacts_loop inputArtifacts artifacts w h = (inr artifacts', d) →
  k ∉ name <$> inputArtifacts →
  artifacts' !! k = artifacts !! k.
Proof.
  revert artifacts h d.
  induction inputArtifacts as [|a rest IH]; intros artifacts h d; simpl.
  { by intros [= <- _]. }
  unfold bind, request.
  destruct (s3_getObject w h _) as [e|artifactData]; [done |].
  match goal with |- context [processArtifacts_loop rest ?acc w ?h'] =>
    destruct (processArtifacts_loop rest acc w h') as [r d'] eqn:E
  end.
  intros [= -> _] Hk. apply not_elem_of_cons in Hk as [Hne Hk].
  rewrite (IH _ _ _ E Hk). by rewrite lookup_assign_ne.
Qed.

Lemma processArtifacts_loop_last before artifact after artifacts w h artifacts' d :
  processArtifacts_loop (before ++ artifact :: after) artifacts w h
  = (inr artifacts', d) →
  name artifact ∉ name <$> after →
  ∃ artifactData,
    s3_getObject w (h ++ ((λ a, fetch a None) <$> before))
      (S3_getObject (bucketName (location artifact))
         (objectKey (location artifact)))
    = inr artifactData
    ∧ artifacts' !! name artifact = Some (payload_of artifactData).
Proof.
  revert artifacts h d.
  induction before as [|b before IH]; intros artifacts h d; simpl.
  - unfold bind, request. rewrite app_nil_r.
    destruct (s3_getObject w h _) as [e|artifactData]; [done |].
    match goal with |- context [processArtifacts_loop after ?acc w ?h'] =>
      destruct (processArtifacts_loop after acc w h') as [r d'] eqn:E
    end.
    intros [= -> _] Hk. exists artifactData. split; [done |].
    rewrite (processArtifacts_loop_other _ _ _ _ _ _ _ E Hk).
    by rewrite lookup_assign_eq.
  - unfold bind, request.
    destruct (s3_getObject w h _) as [e|artifactData]; [done |].
    match goal with
    | |- context [processArtifacts_loop (before ++ artifact :: after) ?acc w ?h'] =>
        destruct (processArtifacts_loop (before ++ artifact :: after) acc w h')
          as [r d'] eqn:E
    end.
    intros [= -> _] Hk.
    destruct (IH _ _ _ E Hk) as (artifactData' & Hfetch & Hlookup).
    exists artifactData'. split; [|done].
    by rewrite <- app_assoc in Hfetch.
Qed.

(** X9. When several input artifacts have the same name, the last one
    wins: in the mapping that [processArtifacts] returns, a name stands for
    the object fetched for the last reference with that name, its body,
    metadata and content type as the object store answered that fetch. *)
Theorem last_artifact_of_a_name_wins before artifact after w h artifacts d :
  processArtifacts (before ++ artifact :: after) w h = (inr artifacts, d) →
  name artifact ∉ name <$> after →
  ∃ artifactData,
    s3_getObject w (h ++ ((λ a, fetch a None) <$> before))
      (S3_getObject (bucketName (location artifact))
         (objectKey (location artifact)))
    = inr artifactData
    ∧ artifacts !! name artifact
      = Some {| payload_data := Body artifactData;
                payload_metadata := Metadata artifactData;
                payload_contentType := ContentType artifactData |}.
Proof. apply processArtifacts_loop_last. Qed.

Lemma last_artifact_of_a_name_wins_witness :
  ∃ artifactData,
    inr {| Body := []; Metadata := ∅; ContentType := Some "build-2.zip" |}
    = (inr artifactData : exn + GetObjectOutput)
    ∧ object_with
        {["BuildArtifact" :=
            {| payload_data := [];
               payload_metadata := ∅;
               payload_contentType := Some "build-2.zip" |}]}
      !! "BuildArtifact"
      = Some {| payload_data := Body artifactData;
                payload_metadata := Metadata artifactData;
                payload_contentType := ContentType artifactData |}.
Proof.
  apply (last_artifact_of_a_name_wins
           [stored_artifact "BuildArtifact" "build-1.zip"]
           (stored_artifact "BuildArtifact" "build-2.zip") []
           echo_world []
           (object_with
              {["BuildArtifact" :=
                  {| payload_data := [];
                     payload_metadata := ∅;
                     payload_contentType := Some "build-2.zip" |}]})
           [fetch (stored_artifact "BuildArtifact" "build-1.zip") None;
            fetch (stored_artifact "BuildArtifact" "build-2.zip") None]).
  - vm_compute. reflexivity.
  - apply not_elem_of_nil.
Defined.

(** ** How many requests a job makes *)

Lemma calls_app k d1 d2 : calls k (d1 ++ d2) = calls k d1 ++ calls k d2.
Proof. apply filter_app. Qed.

Lemma length_calls k d : (length (calls k d) ≤ length d)%nat.
Proof. apply length_filter. Qed.

Lemma calls_fetches (refs : list Artifact) :
  calls GetObject ((λ a, fetch a None) <$> refs) = (λ a, fetch a None) <$> refs.
Proof.
  unfold calls. induction refs as [|a refs IH]; [done |].
  rewrite fmap_cons, filter_cons_True by done. by rewrite IH.
Qed.

Lemma count_summary_writes k result (outputs : list Artifact) (times : list Z) :
  k = PutObject ∨ k = ClockRead →
  length times = length outputs →
  length (calls k (summary_writes result outputs times)) = length outputs.
Proof.
  intros Hk. unfold summary_writes, calls. revert times.
  induction outputs as [|a outputs IH]; intros [|ms times] Hlen; try done.
  simpl in *. destruct Hk as [-> | ->].
  - rewrite filter_cons_False, filter_cons_True by done. simpl.
    f_equal. apply IH. lia.
  - rewrite filter_cons_True, filter_cons_False by done. simpl.
    f_equal. apply IH. lia.
Qed.

(** The fetches of the first stage. *)
Lemma processArtifacts_count inputArtifacts w h r d :
  processArtifacts inputArtifacts w h = (r, d) →
  (length d ≤ length inputArtifacts)%nat
  ∧ (returned r → length (calls GetObject d) = length inputArtifacts).
Proof.
  intros E. unfold processArtifacts in E.
  pose proof (processArtifacts_loop_run inputArtifacts empty_object w h) as Hrun.
  rewrite E in Hrun. destruct r as [e0|artifacts]; simpl.
  - destruct Hrun as (done & a & rest & -> & ->).
    rewrite !length_app, length_fmap. simpl. split; [lia | done].
  - destruct Hrun as [-> _]. rewrite calls_fetches, length_fmap. done.
Qed.

(** The writes of the third stage, and its readings of the clock. *)
Lemma write_summaries_count k outputArtifacts result w h r d :
  k = PutObject ∨ k = ClockRead →
  write_summaries outputArtifacts result w h = (r, d) →
  (length (calls k d) ≤ length (default [] outputArtifacts))%nat
  ∧ (returned r → length (calls k d) = length (default [] outputArtifacts)).
Proof.
  intros Hk E. unfold write_summaries in E.
  destruct (nonempty outputArtifacts) eqn:Hne.
  - pose proof (updateOutputArtifacts_run (default [] outputArtifacts) result w h)
      as Hrun.
    rewrite E in Hrun. destruct r as [e0|[]]; simpl.
    + destruct Hrun as (done & a & rest & times & ms & -> & Hlen & ->).
      rewrite calls_app, !length_app, (count_summary_writes _ _ _ _ Hk Hlen).
      split; [|done]. unfold summary_write, calls.
      destruct Hk as [-> | ->].
      * rewrite filter_cons_False, filter_cons_True by done. simpl. lia.
      * rewrite filter_cons_True, filter_cons_False by done. simpl. lia.
    + destruct Hrun as (times & Hlen & ->).
      by rewrite (count_summary_writes _ _ _ _ Hk Hlen).
  - injection E as <- <-. simpl. split; [lia |]. intros _.
    by destruct outputArtifacts as [[|??]|].
Qed.

(** A backend makes each of its requests, and reads the clock, at most
    once. *)
Lemma executeDeployment_count k config artifacts w h :
  (length (calls k (executeDeployment config artifacts w h).2) ≤ 1)%nat.
Proof.
  unfold executeDeployment. repeat case_decide.
  - destruct (or_else (artifacts !! "BuildArtifact") (artifacts !! "SourceOutput"))
      as [appArtifact|] eqn:Happ.
    + rewrite (deployToLambda_run _ _ _ _ _ Happ); simpl.
      destruct (lambda_updateFunctionCode w h _) as [e1|updateResult];
        [simpl; destruct k; simpl; lia |].
      destruct (lambda_waitFor w _ _) as [e2|[]];
        [simpl; destruct k; simpl; lia |].
      case_decide; [|simpl; destruct k; simpl; lia].
      destruct (lambda_updateFunctionConfiguration w _ _) as [e3|[]];
        simpl; destruct k; simpl; lia.
    + unfold deployToLambda. rewrite Happ. simpl. lia.
  - rewrite deployToECS_run; simpl.
    destruct (ecs_updateService w h _) as [e1|updateResult];
      [simpl; destruct k; simpl; lia |].
    destruct (service updateResult); simpl; destruct k; simpl; lia.
  - destruct (or_else (artifacts !! "BuildArtifact") (artifacts !! "SourceOutput"))
      as [appArtifact|] eqn:Happ.
    + rewrite (deployToS3_run _ _ _ _ _ Happ); simpl.
      destruct (s3_upload w _ _) as [e1|uploadResult];
        simpl; destruct k; simpl; lia.
    + unfold or_else in Happ.
      destruct (artifacts !! "BuildArtifact") eqn:Hbuild; [done |].
      rewrite deployToS3_missing by done. simpl. lia.
  - simpl. lia.
Qed.

Lemma stage_count {A} (ks : list kind) (m : M A) w h r d k :
  stage ks m → m w h = (r, d) → k ∉ ks → length (calls k d) = 0%nat.
Proof.
  intros Hm E Hk. destruct (Hm w h) as [Hks _]. rewrite E in Hks.
  rewrite (absent_calls k d); [done |]. by eapply absent_kind.
Qed.

Lemma processArtifacts_budget k inputArtifacts w h r d :
  processArtifacts inputArtifacts w h = (r, d) →
  (length (calls k d)
   ≤ if decide (k = GetObject) then length inputArtifacts else 0)%nat.
Proof.
  intros E. case_decide as Hk.
  - etrans; [apply length_calls |]. by apply (processArtifacts_count _ _ _ _ _ E).
  - rewrite (stage_count _ _ _ _ _ _ k (stage_processArtifacts _) E); [done |].
    rewrite !elem_of_cons, elem_of_nil. tauto.
Qed.

Lemma executeDeployment_budget k config artifacts w h r d :
  executeDeployment config artifacts w h = (r, d) →
  (length (calls k d)
   ≤ if decide (k ∈ [GetObject; PutObject; PutJobSuccessResult; PutJobFailureResult])
     then 0 else 1)%nat.
Proof.
  intros E. case_decide as Hk.
  - rewrite (stage_count _ _ _ _ _ _ k (stage_executeDeployment _ _) E); [done |].
    revert Hk. rewrite !elem_of_cons, !elem_of_nil.
    intros [->|[->|[->|[->|[]]]]]; intuition discriminate.
  - pose proof (executeDeployment_count k config artifacts w h) as Hle.
    by rewrite E in Hle.
Qed.

Lemma write_summaries_budget k outputArtifacts result w h r d :
  write_summaries outputArtifacts result w h = (r, d) →
  (length (calls k d)
   ≤ if decide (k = PutObject ∨ k = ClockRead)
     then length (default [] outputArtifacts) else 0)%nat.
Proof.
  intros E. case_decide as Hk.
  - by apply (write_summaries_count _ _ _ _ _ _ _ Hk E).
  - rewrite (stage_count _ _ _ _ _ _ k (stage_write_summaries _ _) E); [done |].
    rewrite !elem_of_cons, elem_of_nil. intuition congruence.
Qed.

(** The artifacts that a trace fetched, and those it wrote. *)
Lemma absent_fetch_targets d :
  Forall (λ e, kind_of e ≠ GetObject) d → omap fetch_target d = [].
Proof.
  induction 1 as [|x d Hx _ IH]; [done |].
  by destruct x as [[] ?|].
Qed.

Lemma absent_write_targets d :
  Forall (λ e, kind_of e ≠ PutObject) d → omap write_target d = [].
Proof.
  induction 1 as [|x d Hx _ IH]; [done |].
  by destruct x as [[] ?|].
Qed.

Lemma stage_targets {A} (ks : list kind) (m : M A) w h r d :
  stage ks m → m w h = (r, d) →
  (GetObject ∉ ks → omap fetch_target d = [])
  ∧ (PutObject ∉ ks → omap write_target d = []).
Proof.
  intros Hm E. destruct (Hm w h) as [Hks _]. rewrite E in Hks.
  split; intros Hk;
    [apply absent_fetch_targets | apply absent_write_targets];
    by eapply absent_kind.
Qed.

Lemma fetch_targets_fetches (refs : list Artifact) :
  omap fetch_target ((λ a, fetch a None) <$> refs) = target <$> refs.
Proof.
  induction refs as [|a refs IH]; [done |].
  exact (f_equal (cons (target a)) IH).
Qed.

Lemma write_targets_summary_writes result (outputs : list Artifact) (times : list Z) :
  length times = length outputs →
  omap write_target (summary_writes result outputs times) = target <$> outputs.
Proof.
  unfold summary_writes. revert times.
  induction outputs as [|a outputs IH]; intros [|ms times] Hlen; try done.
  apply (f_equal (cons (target a))), IH. simpl in Hlen. lia.
Qed.

(** The fetches of the first stage are those of the input artifacts, in
    their order, as far as the stage got. *)
Lemma processArtifacts_targets inputArtifacts w h r d :
  processArtifacts inputArtifacts w h = (r, d) →
  omap fetch_target d `prefix_of` target <$> inputArtifacts
  ∧ (returned r → omap fetch_target d = target <$> inputArtifacts).
Proof.
  intros E. unfold processArtifacts in E.
  pose proof (processArtifacts_loop_run inputArtifacts empty_object w h) as Hrun.
  rewrite E in Hrun. destruct r as [e0|artifacts]; simpl.
  - destruct Hrun as (done & a & rest & -> & ->). split; [|done].
    rewrite omap_app, fetch_targets_fetches, fmap_app. simpl.
    exists (target <$> rest). by rewrite <- app_assoc.
  - destruct Hrun as [-> _]. by rewrite fetch_targets_fetches.
Qed.

(** The writes of the third stage are those of the output artifacts, in
    their order, as far as the stage got. *)
Lemma write_summaries_targets outputArtifacts result w h r d :
  write_summaries outputArtifacts result w h = (r, d) →
  omap write_target d `prefix_of` target <$> default [] outputArtifacts
  ∧ (returned r → omap write_target d = target <$> default [] outputArtifacts).
Proof.
  intros E. unfold write_summaries in E.
  destruct (nonempty outputArtifacts) eqn:Hne.
  - pose proof (updateOutputArtifacts_run (default [] outputArtifacts) result w h)
      as Hrun.
    rewrite E in Hrun. destruct r as [e0|[]]; simpl.
    + destruct Hrun as (done & a & rest & times & ms & -> & Hlen & ->).
      split; [|done].
      rewrite omap_app, (write_targets_summary_writes _ _ _ Hlen), fmap_app.
      simpl. exists (target <$> rest). by rewrite <- app_assoc.
    + destruct Hrun as (times & Hlen & ->).
      by rewrite (write_targets_summary_writes _ _ _ Hlen).
  - injection E as <- <-. simpl. split; [apply prefix_nil |]. intros _.
    by destruct outputArtifacts as [[|??]|].
Qed.

(** X8. A job makes no more requests than its budget, whatever the
    services answer.  The fetches of a run are those of the input artifacts
    in their order, one for each, as far as the run got, and its writes of
    summaries are those of the output artifacts in their order, one for
    each, as far as the run got; there is at most one of each request of a
    backend and one of each report: nothing is retried.  A run that returns
    has fetched every input artifact and written the summary of every
    output artifact, each exactly once. *)
Theorem handler_keeps_to_its_budget w h job :
  let run := handler {| CodePipeline_job := Some job |} w h in
  let inputs := inputArtifacts (data job) in
  let outputs := default [] (outputArtifacts (data job)) in
  omap fetch_target run.2 `prefix_of` target <$> inputs
  ∧ omap write_target run.2 `prefix_of` target <$> outputs
  ∧ (∀ k, (length (calls k run.2) ≤ request_budget (data job) k)%nat)
  ∧ (returned run.1 →
       omap fetch_target run.2 = target <$> inputs
       ∧ omap write_target run.2 = target <$> outputs).
Proof.
  intros run inputs outputs. subst run inputs outputs.
  assert (Hbudget : ∀ k,
    (length (calls k (handler {| CodePipeline_job := Some job |} w h).2)
     ≤ request_budget (data job) k)%nat).
  { destruct (handler_run job w h)
      as [e0 d1 rej E1|artifacts d1 e0 d2 rej E1 E2
         |artifacts d1 result d2 e0 d3 rej E1 E2 E3
         |artifacts d1 result d2 d3 ms e0 rej E1 E2 E3
         |artifacts d1 result d2 d3 ms E1 E2 E3]; simpl;
      intros k;
      pose proof (processArtifacts_budget k _ _ _ _ _ E1) as B1;
      try pose proof (executeDeployment_budget k _ _ _ _ _ _ E2) as B2;
      try pose proof (write_summaries_budget k _ _ _ _ _ _ E3) as B3;
      rewrite !calls_app, !length_app;
      destruct k; simpl in *; lia. }
  destruct (handler_run job w h)
    as [e0 d1 rej E1|artifacts d1 e0 d2 rej E1 E2
       |artifacts d1 result d2 e0 d3 rej E1 E2 E3
       |artifacts d1 result d2 d3 ms e0 rej E1 E2 E3
       |artifacts d1 result d2 d3 ms E1 E2 E3]; simpl in *;
    destruct (processArtifacts_targets _ _ _ _ _ E1) as [P1 Q1];
    destruct (stage_targets _ _ _ _ _ _ (stage_processArtifacts _) E1) as [_ W1];
    try destruct (stage_targets _ _ _ _ _ _ (stage_executeDeployment _ _) E2)
      as [F2 W2];
    try destruct (write_summaries_targets _ _ _ _ _ _ E3) as [P3 Q3];
    try destruct (stage_targets _ _ _ _ _ _ (stage_write_summaries _ _) E3)
      as [F3 _];
    rewrite !omap_app, ?W1, ?F2, ?W2, ?F3 by solve_absent;
    simpl; rewrite ?app_nil_r;
    (split_and!; [done | first [done | apply prefix_nil] | done |]);
    try done.
  intros _. by rewrite (Q1 I), (Q3 I).
Qed.

(** ** What the backends deploy *)

(** X13. The package that a backend deploys is the data of the artifact
    [BuildArtifact], and that of [SourceOutput] only when there is no
    [BuildArtifact]: this holds for the code given to
    [updateFunctionCode] and for the body of the upload. *)
Theorem backends_deploy_the_build_artifact config artifacts w h x package :
  x ∈ (executeDeployment config artifacts w h).2 →
  (∃ functionName rej,
     x = Called (Lambda_updateFunctionCode functionName package) rej)
  ∨ (∃ bucket key contentType rej,
       x = Called (S3_upload bucket key package contentType) rej) →
  ∃ appArtifact,
    package = payload_data appArtifact
    ∧ (artifacts !! "BuildArtifact" = Some appArtifact
       ∨ artifacts !! "BuildArtifact" = None
         ∧ artifacts !! "SourceOutput" = Some appArtifact).
Proof.
  intros Hin Hx.
  assert (Hsource : ∀ appArtifact,
            or_else (artifacts !! "BuildArtifact") (artifacts !! "SourceOutput")
            = Some appArtifact →
            artifacts !! "BuildArtifact" = Some appArtifact
            ∨ artifacts !! "BuildArtifact" = None
              ∧ artifacts !! "SourceOutput" = Some appArtifact).
  { intros appArtifact. unfold or_else.
    destruct (artifacts !! "BuildArtifact"); [by left | by right]. }
  assert (Hshape : ∀ y, x = y →
            (∀ functionName rej,
               y ≠ Called (Lambda_updateFunctionCode functionName package) rej) →
            (∀ bucket key contentType rej,
               y ≠ Called (S3_upload bucket key package contentType) rej) →
            False).
  { intros y -> H1 H2.
    destruct Hx as [(? & ? & ?)|(? & ? & ? & ? & ?)]; [by eapply H1 | by eapply H2]. }
  revert Hin. unfold executeDeployment. repeat case_decide.
  - destruct (or_else (artifacts !! "BuildArtifact") (artifacts !! "SourceOutput"))
      as [appArtifact|] eqn:Happ;
      [|unfold deployToLambda; rewrite Happ; by intros ?%elem_of_nil].
    rewrite (deployToLambda_run _ _ _ _ _ Happ); simpl.
    assert (Hcode : ∀ rej,
              x = Called (Lambda_updateFunctionCode (config !! "targetFunction")
                            (payload_data appArtifact)) rej →
              ∃ appArtifact0,
                package = payload_data appArtifact0
                ∧ (artifacts !! "BuildArtifact" = Some appArtifact0
                   ∨ artifacts !! "BuildArtifact" = None
                     ∧ artifacts !! "SourceOutput" = Some appArtifact0)).
    { intros rej ->. exists appArtifact. split; [|by apply Hsource].
      destruct Hx as [(? & ? & [= _ <- _])|(? & ? & ? & ? & ?)]; done. }
    destruct (lambda_updateFunctionCode w h _) as [e1|updateResult].
    { intros Hin. apply list_elem_of_singleton in Hin. by eapply Hcode. }
    destruct (lambda_waitFor w _ _) as [e2|[]].
    { simpl. rewrite !elem_of_cons, elem_of_nil. intros [Hin|[Hin|[]]];
        [by eapply Hcode | exfalso; by eapply Hshape]. }
    case_decide.
    + destruct (lambda_updateFunctionConfiguration w _ _) as [e3|[]];
        simpl; rewrite !elem_of_cons, elem_of_nil;
        intros [Hin|[Hin|[Hin|[Hin|[]]]]];
        first [by eapply Hcode | exfalso; by eapply Hshape].
    + simpl. rewrite !elem_of_cons, elem_of_nil. intros [Hin|[Hin|[]]];
        [by eapply Hcode | exfalso; by eapply Hshape].
  - rewrite deployToECS_run; simpl.
    destruct (ecs_updateService w h _) as [e1|updateResult];
      [|destruct (service updateResult)];
      intros Hin; apply list_elem_of_singleton in Hin;
      exfalso; by eapply Hshape.
  - destruct (or_else (artifacts !! "BuildArtifact") (artifacts !! "SourceOutput"))
      as [appArtifact|] eqn:Happ.
    + rewrite (deployToS3_run _ _ _ _ _ Happ); simpl.
      destruct (s3_upload w _ _) as [e1|uploadResult];
        simpl; rewrite !elem_of_cons, elem_of_nil;
        (intros [Hin|[Hin|[]]]; [exfalso; by eapply Hshape |]);
        exists appArtifact; (split; [|by apply Hsource]);
        destruct Hx as [(? & ? & ?)|(? & ? & ? & ? & Hx)]; simplify_eq; done.
    + unfold or_else in Happ.
      destruct (artifacts !! "BuildArtifact") eqn:Hbuild; [done |].
      rewrite deployToS3_missing by done. by intros ?%elem_of_nil.
  - by intros ?%elem_of_nil.
Qed.

Lemma backends_deploy_the_build_artifact_witness :
  ∃ appArtifact,
    [Byte.x01] = payload_data appArtifact
    ∧ (object_with {["BuildArtifact" := build_payload; "SourceOutput" := test_payload]}
         !! "BuildArtifact" = Some appArtifact
       ∨ object_with {["BuildArtifact" := build_payload; "SourceOutput" := test_payload]}
           !! "BuildArtifact" = None
         ∧ object_with
             {["BuildArtifact" := build_payload; "SourceOutput" := test_payload]}
             !! "SourceOutput" = Some appArtifact).
Proof.
  apply (backends_deploy_the_build_artifact
           {["deploymentType" := "s3"; "bucketName" := "releases"]}
           (object_with
              {["BuildArtifact" := build_payload; "SourceOutput" := test_payload]})
           test_world []
           (Called
              (S3_upload (Some "releases") "deployments/1700000000000/app.zip"
                 [Byte.x01] "application/zip")
              None)).
  - vm_compute. apply list_elem_of_further, list_elem_of_here.
  - right. by exists (Some "releases"), "deployments/1700000000000/app.zip",
      "application/zip", None.
Defined.

(** X14. The configuration of the function is updated only after its code:
    when [deployToLambda] requests [updateFunctionConfiguration], the code
    update and the wait for it were both fulfilled, these are all its
    requests, the environment is not "production", and the variables carry
    that environment and the time read just before. *)
Theorem configuration_update_follows_the_code_update
    config artifacts w h functionName environment date rej :
  Called (Lambda_updateFunctionConfiguration functionName environment date) rej
    ∈ (deployToLambda config artifacts w h).2 →
  ∃ package,
    (deployToLambda config artifacts w h).2
    = [Called (Lambda_updateFunctionCode functionName package) None;
       Called (Lambda_waitFor "functionUpdated" functionName) None;
       Clock (getTime date);
       Called (Lambda_updateFunctionConfiguration functionName environment date)
         rej]
    ∧ functionName = config !! "targetFunction"
    ∧ environment = config !! "environment"
    ∧ environment ≠ Some "production".
Proof.
  destruct (or_else (artifacts !! "BuildArtifact") (artifacts !! "SourceOutput"))
    as [appArtifact|] eqn:Happ;
    [|unfold deployToLambda; rewrite Happ; by intros ?%elem_of_nil].
  rewrite (deployToLambda_run _ _ _ _ _ Happ); simpl.
  destruct (lambda_updateFunctionCode w h _) as [e1|updateResult].
  { by intros ?%list_elem_of_singleton. }
  destruct (lambda_waitFor w _ _) as [e2|[]].
  { simpl. rewrite !elem_of_cons, elem_of_nil. intros [Hin|[Hin|[]]]; done. }
  case_decide as Henv.
  - destruct (lambda_updateFunctionConfiguration w _ _) as [e3|[]];
      simpl; rewrite !elem_of_cons, elem_of_nil;
      intros [Hin|[Hin|[Hin|[Hin|[]]]]]; try done;
      injection Hin as -> -> -> ->; by exists (payload_data appArtifact).
  - simpl. rewrite !elem_of_cons, elem_of_nil. intros [Hin|[Hin|[]]]; done.
Qed.

Lemma configuration_update_follows_the_code_update_witness :
  ∃ package,
    (deployToLambda
       (deployment_config ∅ (data (test_job "test-job-id" ["BuildArtifact"] [] ∅)))
       (object_with {["BuildArtifact" := test_payload]}) locked_world []).2
    = [Called (Lambda_updateFunctionCode (Some "lambdadeploy-app") package) None;
       Called (Lambda_waitFor "functionUpdated" (Some "lambdadeploy-app")) None;
       Clock 1700000000000;
       Called
         (Lambda_updateFunctionConfiguration (Some "lambdadeploy-app")
            (Some "development") {| getTime := 1700000000000 |})
         (Some (Error "ResourceConflictException"))].
Proof.
  destruct (configuration_update_follows_the_code_update
              (deployment_config ∅
                 (data (test_job "test-job-id" ["BuildArtifact"] [] ∅)))
              (object_with {["BuildArtifact" := test_payload]}) locked_world []
              (Some "lambdadeploy-app") (Some "development")
              {| getTime := 1700000000000 |}
              (Some (Error "ResourceConflictException")))
    as (package & Htrace & _).
  - vm_compute. do 3 apply list_elem_of_further. apply list_elem_of_here.
  - exists package. exact Htrace.
Defined.

(** ** Failures that are the job's own *)

Lemma processArtifacts_throws_on_rejection inputArtifacts w h e d :
  processArtifacts inputArtifacts w h = (inl e, d) → ¬ Forall fulfilled d.
Proof.
  intros E Hall. unfold processArtifacts in E.
  pose proof (processArtifacts_loop_run inputArtifacts empty_object w h) as Hrun.
  rewrite E in Hrun. destruct Hrun as (done & a & rest & _ & ->).
  apply Forall_app in Hall as [_ Hall]. by apply Forall_cons in Hall as [? _].
Qed.

Lemma write_summaries_throws_on_rejection outputArtifacts result w h e d :
  write_summaries outputArtifacts result w h = (inl e, d) → ¬ Forall fulfilled d.
Proof.
  intros E Hall. unfold write_summaries in E.
  destruct (nonempty outputArtifacts); [|done].
  pose proof (updateOutputArtifacts_run (default [] outputArtifacts) result w h)
    as Hrun.
  rewrite E in Hrun.
  destruct Hrun as (done & a & rest & times & ms & _ & _ & ->).
  apply Forall_app in Hall as [_ Hall]. unfold summary_write in Hall.
  apply Forall_cons in Hall as [_ Hall]. by apply Forall_cons in Hall as [? _].
Qed.

(** A dispatch that throws after fulfilled requests only. *)
Lemma executeDeployment_input_error config artifacts w h e d :
  executeDeployment config artifacts w h = (inl e, d) →
  Forall fulfilled d →
  input_error config artifacts w h e d.
Proof.
  unfold executeDeployment.
  destruct (decide (config !! "deploymentType" = Some "lambda")) as [Hty|Hl].
  { destruct (or_else (artifacts !! "BuildArtifact") (artifacts !! "SourceOutput"))
      as [appArtifact|] eqn:Happ.
    - rewrite (deployToLambda_run _ _ _ _ _ Happ); simpl.
      destruct (lambda_updateFunctionCode w h _) as [e1|updateResult].
      { intros [= _ <-] Hall. by apply Forall_cons in Hall as [? _]. }
      destruct (lambda_waitFor w _ _) as [e2|[]].
      { intros [= _ <-] Hall. apply Forall_cons in Hall as [_ Hall].
        by apply Forall_cons in Hall as [? _]. }
      case_decide; [|done].
      destruct (lambda_updateFunctionConfiguration w _ _) as [e3|[]]; [|done].
      intros [= _ <-] Hall. do 3 apply Forall_cons in Hall as [_ Hall].
      by apply Forall_cons in Hall as [? _].
    - unfold or_else in Happ.
      destruct (artifacts !! "BuildArtifact") eqn:Hbuild; [done |].
      rewrite deployToLambda_missing by done. intros [= <- <-] _.
      by apply no_artifact_for_lambda. }
  destruct (decide (config !! "deploymentType" = Some "ecs")) as [Hty|He].
  { rewrite deployToECS_run; simpl. fold (update_service config).
    destruct (ecs_updateService w h _) as [e1|updateResult] eqn:Hupdate.
    { intros [= _ <-] Hall. by apply Forall_cons in Hall as [? _]. }
    destruct (service updateResult) eqn:Hservice; [done |].
    intros [= <- <-] _. by eapply no_service_in_response. }
  destruct (decide (config !! "deploymentType" = Some "s3")) as [Hty|Hs].
  { destruct (or_else (artifacts !! "BuildArtifact") (artifacts !! "SourceOutput"))
      as [appArtifact|] eqn:Happ.
    - rewrite (deployToS3_run _ _ _ _ _ Happ); simpl.
      destruct (s3_upload w _ _) as [e1|uploadResult]; [|done].
      intros [= _ <-] Hall. apply Forall_cons in Hall as [_ Hall].
      by apply Forall_cons in Hall as [? _].
    - unfold or_else in Happ.
      destruct (artifacts !! "BuildArtifact") eqn:Hbuild; [done |].
      rewrite deployToS3_missing by done. intros [= <- <-] _.
      by apply no_artifact_for_s3. }
  intros [= <- <-] _. by apply unsupported_type.
Qed.

(** X12. When every request of a run is fulfilled, the job can only fail
    for a reason of its own: the handler returns, or the artifacts were
    fetched and their dispatch threw, after fulfilled requests only,
    because no application artifact was found (function-update and
    static-artifact backends), because the answer of the container service
    had no [service], or because the deployment type is not supported; the
    handler then reports that error and throws it. *)
Theorem fulfilled_run_fails_only_on_its_input w h job :
  Forall fulfilled (handler {| CodePipeline_job := Some job |} w h).2 →
  returned (handler {| CodePipeline_job := Some job |} w h).1
  ∨ ∃ artifacts d1 error d2,
      processArtifacts (inputArtifacts (data job)) w h = (inr artifacts, d1)
      ∧ executeDeployment (deployment_config (process_env w) (data job))
          artifacts w (h ++ d1) = (inl error, d2)
      ∧ input_error (deployment_config (process_env w) (data job)) artifacts
          w (h ++ d1) error d2
      ∧ handler {| CodePipeline_job := Some job |} w h
        = (inl error, d1 ++ d2 ++ [failure_report job error None]).
Proof.
  destruct (handler_run job w h)
    as [e0 d1 rej E1|artifacts d1 e0 d2 rej E1 E2
       |artifacts d1 result d2 e0 d3 rej E1 E2 E3
       |artifacts d1 result d2 d3 ms e0 rej E1 E2 E3
       |artifacts d1 result d2 d3 ms E1 E2 E3]; simpl;
    rewrite ?Forall_app; intros Hall.
  - destruct Hall as [Hall _].
    by apply processArtifacts_throws_on_rejection in E1.
  - destruct Hall as (_ & Hall & Hreport).
    apply Forall_cons in Hreport as [Hrej _].
    unfold fulfilled in Hrej; simpl in Hrej; subst rej.
    right. exists artifacts, d1, e0, d2. split_and!; [done | done | | done].
    by apply executeDeployment_input_error.
  - destruct Hall as (_ & _ & Hall & _).
    by apply write_summaries_throws_on_rejection in E3.
  - destruct Hall as (_ & _ & _ & Hall).
    apply Forall_cons in Hall as [_ Hall]. by apply Forall_cons in Hall as [? _].
  - by left.
Qed.

(** The job of the test suite with an input artifact of another name, in a
    world that fulfils every request: the run fails for a reason of its
    own. *)
Lemma fulfilled_run_fails_only_on_its_input_witness :
  returned (handler (test_event ["TestOutput"] [] ∅) test_world []).1
  ∨ ∃ artifacts d1 error d2,
      processArtifacts
        (inputArtifacts (data (test_job "test-job-id" ["TestOutput"] [] ∅)))
        test_world [] = (inr artifacts, d1)
      ∧ executeDeployment
          (deployment_config (process_env test_world)
             (data (test_job "test-job-id" ["TestOutput"] [] ∅)))
          artifacts test_world ([] ++ d1) = (inl error, d2)
      ∧ input_error
          (deployment_config (process_env test_world)
             (data (test_job "test-job-id" ["TestOutput"] [] ∅)))
          artifacts test_world ([] ++ d1) error d2
      ∧ handler (test_event ["TestOutput"] [] ∅) test_world []
        = (inl error,
           d1 ++ d2
           ++ [failure_report (test_job "test-job-id" ["TestOutput"] [] ∅)
                 error None]).
Proof.
  apply (fulfilled_run_fails_only_on_its_input test_world []
           (test_job "test-job-id" ["TestOutput"] [] ∅)).
  vm_compute. repeat constructor.
Defined.
